(** * alert2pg: the deduplication buffer and the persistence engine

    A shallow embedding of [pkg/alert/alert.go], [buffer/buffer.go] and the
    batch part of [storage/storage.go], followed by the properties of the
    buffer's upsert, reconciliation, eviction and mark-persisted operations
    and of the engine's batch save. *)

From stdpp Require Import base numbers strings pretty list gmap fin_maps.

Local Open Scope Z_scope.

(** ** Machine integers and time values *)

(** Go's [int64]: results of arithmetic wrap around modulo 2^64. *)
Definition minInt64 : Z := - 2 ^ 63.
Definition maxInt64 : Z := 2 ^ 63 - 1.

Definition wrap64 (z : Z) : Z := (z + 2 ^ 63) `mod` 2 ^ 64 - 2 ^ 63.

(** [time.Duration] is an [int64] count of nanoseconds. *)
Definition Duration := Z.

Definition Minute : Duration := 60 * 1000000000.
Definition Second : Duration := 1000000000.

(** [*time.Location].  The code never reads a Location; it only compares
    the pointers, when [==] compares two times.  A pointer is modelled by a
    tag of the Location object that it refers to: "UTC" is the nil pointer,
    which Go keeps for UTC, "Local" is [&localLoc], and every other Location
    object has a tag of its own.  Two objects have different tags also when
    they describe the same zone: the JSON decoder takes the Location of a
    timestamp with an offset from [time.FixedZone], which returns a shared
    object for an offset of whole hours and allocates a new object at every
    call for any other offset, such as +05:30. *)
Definition Location := string.

(** [time.Time], by the three things that Go's [==] compares in it: the
    instant, as nanoseconds since the Unix epoch; the Location pointer; and
    the reading of the monotonic clock, which the values of [time.Now()]
    carry and decoded timestamps do not.  Two times are [==] exactly when
    the records are equal. *)
Record Time := makeTime {
  unixNano : Z;
  location : Location;
  monotonic : option Z
}.

Global Instance Time_eq_dec : EqDecision Time.
Proof. solve_decision. Defined.

(** A time without monotonic reading, as decoding a timestamp gives it. *)
Definition mkTime (n : Z) (loc : Location) : Time := makeTime n loc None.

(** [t.UnixMilli()]: the number of whole milliseconds since the epoch, as an
    [int64]. *)
Definition UnixMilli (t : Time) : Z := wrap64 (unixNano t `div` 1000000).

(** [t.Sub(u)]: the difference of the instants, saturating at the largest and
    smallest [Duration].  When both times carry a monotonic reading Go
    subtracts the readings instead; the monotonic clock is taken to advance
    with the wall clock (the system clock is not set while the process
    runs), so that is the same difference. *)
Definition Sub (t u : Time) : Duration :=
  let d := unixNano t - unixNano u in
  if decide (maxInt64 < d) then maxInt64
  else if decide (d < minInt64) then minInt64
  else d.

(** [time.Since(t)] when the clock reads [now]. *)
Definition Since (now t : Time) : Duration := Sub now t.

(** ** Package alert *)

Module alert.

Definition Firing : string := "firing".
Definition Resolved : string := "resolved".

Record Alert := mkAlert {
  Loaded : bool;
  LoadedAt : Time;
  Fingerprint : string;
  Status : string;
  StartsAt : Time;
  EndsAt : Time;
  Labels : gmap string string;
  Annotations : gmap string string;
  GeneratorURL : string
}.

Definition Alerts := list Alert.

(** Go's zero [time.Time]: 0001-01-01T00:00:00Z, which is 62135596800
    seconds before the Unix epoch, with the nil Location pointer and no
    monotonic reading. *)
Definition zeroTime : Time := mkTime (- 62135596800 * 1000000000) "UTC".

(** [DefaultAlert()], the clock reading [now]; the fields it does not name
    are Go's zero values. *)

Definition DefaultAlert (now : Time) : Alert :=
  {| Loaded := false; LoadedAt := now;
     Fingerprint := ""; Status := "";
     StartsAt := zeroTime; EndsAt := zeroTime;
     Labels := ∅; Annotations := ∅; GeneratorURL := "" |}.

(** [a.UnmarshalJSON(data)]: the record is reset to [DefaultAlert()] and the
    fields of the JSON object are then copied in.  [j] carries the decoded
    JSON fields; [Loaded] and [LoadedAt] are tagged [json:"-"], so nothing
    is read into them. *)
Definition UnmarshalJSON (now : Time) (j : Alert) : Alert :=
  {| Loaded := Loaded (DefaultAlert now);
     LoadedAt := LoadedAt (DefaultAlert now);
     Fingerprint := Fingerprint j; Status := Status j;
     StartsAt := StartsAt j; EndsAt := EndsAt j;
     Labels := Labels j; Annotations := Annotations j;
     GeneratorURL := GeneratorURL j |}.

(** [fmt.Sprintf("%s:%d", a.Fingerprint, a.StartsAt.UnixMilli())] *)
Definition Key (a : Alert) : string :=
  Fingerprint a +:+ ":" +:+ pretty (UnixMilli (StartsAt a)).

(** The loop of [Equal] over [a.Labels]: every label of [a] is a label of [b]
    with the same value. *)
Definition labelsWithin (la lb : gmap string string) : bool :=
  forallb (λ kv, bool_decide (lb !! kv.1 = Some kv.2)) (map_to_list la).

Definition Equal (a b : Alert) : bool :=
  if bool_decide (Fingerprint a ≠ Fingerprint b)
     || bool_decide (Status a ≠ Status b)
     || bool_decide (StartsAt a ≠ StartsAt b)
     || bool_decide (EndsAt a ≠ EndsAt b)
     || bool_decide (GeneratorURL a ≠ GeneratorURL b)
     || bool_decide (size (Annotations a) ≠ size (Annotations b))
  then false
  else labelsWithin (Labels a) (Labels b).

(** [a.IsExpired(t)], the clock reading [now] when [time.Since] is called. *)
Definition IsExpired (now : Time) (t : Duration) (a : Alert) : bool :=
  bool_decide (Status a = Resolved) && Loaded a
  && bool_decide (t < Since now (LoadedAt a)).

(** [a.SetResolved()]; [nowEnds] and [nowLoaded] are the readings of its two
    calls of [time.Now()]. *)
Definition SetResolved (nowEnds nowLoaded : Time) (a : Alert) : Alert :=
  {| Loaded := false; LoadedAt := nowLoaded;
     Fingerprint := Fingerprint a; Status := Resolved;
     StartsAt := StartsAt a; EndsAt := nowEnds;
     Labels := Labels a; Annotations := Annotations a;
     GeneratorURL := GeneratorURL a |}.

End alert.

(** ** Package buffer *)

Module buffer.
Import alert.

Record Options := mkOptions {
  alertmanagerAddr : string;
  maxLifetime : Duration;
  syncInterval : Duration;
  gcInterval : Duration
}.

Definition defaultOptions : Options :=
  {| alertmanagerAddr := "";
     maxLifetime := 10 * Minute;
     syncInterval := 1 * Second;
     gcInterval := 5 * Minute |}.

(** The field [buffer map[string]*alert.Alert] is a finite map from keys to
    records.  Every pointer stored in the map is fresh (the address of the
    loop variable of one iteration of [Update]), so no two keys share a
    record and an assignment through the pointer is an update of the map at
    that key. *)

(** How a call ends: it returns [nil], it returns the error of [Lock], or it
    panics on the dereference of a nil pointer. *)
Inductive Result := Done | LockFailed | NilDereference.

Global Instance Result_eq_dec : EqDecision Result.
Proof. solve_decision. Defined.

(** [GetUnloads] *)
Definition GetUnloads (b : gmap string Alert) : Alerts := [].

(** [source.Loaded = true; source.LoadedAt = time.Now()] *)
Definition markLoaded (now : Time) (source : Alert) : Alert :=
  {| Loaded := true; LoadedAt := now;
     Fingerprint := Fingerprint source; Status := Status source;
     StartsAt := StartsAt source; EndsAt := EndsAt source;
     Labels := Labels source; Annotations := Annotations source;
     GeneratorURL := GeneratorURL source |}.

(** One iteration of the loop of [SetLoads]. *)
Definition SetLoads_body (now : Time) (b : gmap string Alert) (a : Alert)
  : gmap string Alert :=
  match b !! Key a with
  | Some source =>
      if Equal source a then <[Key a := markLoaded now source]> b else b
  | None => b
  end.

(** [SetLoads]; [clock i] is what [time.Now()] reads in iteration [i].  The
    lock is taken with [context.Background()], which is never cancelled. *)
Fixpoint SetLoads_loop (clock : nat → Time) (i : nat) (alerts : Alerts)
    (b : gmap string Alert) : gmap string Alert :=
  match alerts with
  | [] => b
  | a :: rest => SetLoads_loop clock (S i) rest (SetLoads_body (clock i) b a)
  end.

Definition SetLoads (clock : nat → Time) (alerts : Alerts)
    (b : gmap string Alert) : gmap string Alert :=
  SetLoads_loop clock 0%nat alerts b.

(** [b.buffer[a.Key()].LoadedAt = a.LoadedAt] *)
Definition setLoadedAt (t : Time) (stored : Alert) : Alert :=
  {| Loaded := Loaded stored; LoadedAt := t;
     Fingerprint := Fingerprint stored; Status := Status stored;
     StartsAt := StartsAt stored; EndsAt := EndsAt stored;
     Labels := Labels stored; Annotations := Annotations stored;
     GeneratorURL := GeneratorURL stored |}.

(** One iteration of the loop of [Update].  The argument of [a.Equal] is
    [*b.buffer[a.Key()]]: for a key that the map does not hold the index
    expression is the nil pointer and its dereference panics ([None]). *)
Definition Update_body (b : gmap string Alert) (a : Alert)
  : option (gmap string Alert) :=
  match b !! Key a with
  | None => None
  | Some stored =>
      if Equal a stored
      then Some (<[Key a := setLoadedAt (LoadedAt a) stored]> b)
      else Some (<[Key a := a]> b)
  end.

(** The loop of [Update]: a panic leaves the map as the earlier iterations
    made it. *)
Fixpoint Update_loop (b : gmap string Alert) (alerts : Alerts)
  : gmap string Alert * Result :=
  match alerts with
  | [] => (b, Done)
  | a :: rest =>
      match Update_body b a with
      | None => (b, NilDereference)
      | Some b' => Update_loop b' rest
      end
  end.

(** [Update]; [acquired] says whether [b.Lock(ctx)] got the semaphore before
    [ctx] was done. *)
Definition Update (acquired : bool) (b : gmap string Alert) (alerts : Alerts)
  : gmap string Alert * Result :=
  if acquired then Update_loop b alerts else (b, LockFailed).

(** The set of keys that [sync] builds from the controller's answer. *)
Definition firingSet (alerts : Alerts) : gset string :=
  list_to_set (Key <$> alerts).

(** What [sync] does to the record stored at [key]. *)
Definition sync_entry (set : gset string) (clock : string → Time * Time)
    (key : string) (a : Alert) : Alert :=
  if bool_decide (key ∉ set) && bool_decide (Status a = Firing)
  then SetResolved (clock key).1 (clock key).2 a
  else a.

(** [sync]; [fetched] is the result of [GetFiringAlertsFromAlertmanager]
    ([None] for an error) and [clock key] the two readings of [time.Now()]
    made while the record at [key] is visited.  The boolean is [true] when
    [sync] returns an error. *)
Definition sync (fetched : option Alerts) (clock : string → Time * Time)
    (b : gmap string Alert) : gmap string Alert * bool :=
  match fetched with
  | None => (b, true)
  | Some alerts =>
      (map_imap (λ key a, Some (sync_entry (firingSet alerts) clock key a)) b,
       false)
  end.

(** [gc]; [clock key] is the reading of the clock when the record at [key]
    is tested. *)
Definition gc (clock : string → Time) (lifetime : Duration)
    (b : gmap string Alert) : gmap string Alert :=
  filter (λ kv, IsExpired (clock kv.1) lifetime kv.2 = false) b.

(** Every record is stored under its own key. *)
Definition keyed (b : gmap string Alert) : Prop :=
  ∀ key a, b !! key = Some a → Key a = key.

End buffer.

(** ** Package storage: the batch save *)

Module storage.
Import alert.

Record Options := mkOptions {
  timeout : Duration;
  parallelism : Z
}.

(** A goroutine started by [Save]: it waits to receive from [intermediate],
    or it has saved a record and waits to hand the record to [successesChan]
    or the error to [errChan], or it left its loop because [intermediate]
    was closed. *)
Inductive Worker :=
  | Receiving
  | SendingSuccess (a : Alert)
  | SendingError
  | Exited.

(** The goroutines and channels of one call of [Save].  All three channels
    are unbuffered, so a send and a receive happen together.  [senders] are
    the records that goroutines are waiting to send on [intermediate] and
    [closed] says whether that channel has been closed; [remaining] is the
    number of iterations of the collecting loop still to run. *)
Record SaveState := mkSaveState {
  workers : list Worker;
  senders : list Alert;
  closed : bool;
  remaining : nat;
  successAlerts : Alerts;
  successCount : nat;
  failedCount : nat
}.

(** The state after the [go] statements: [parallelism] workers are started,
    and no statement of [Save] sends on [intermediate] or closes it. *)
Definition Save_init (opts : Options) (alerts : Alerts) : SaveState :=
  {| workers := replicate (Z.to_nat (parallelism opts)) Receiving;
     senders := [];
     closed := false;
     remaining := length alerts;
     successAlerts := [];
     successCount := 0;
     failedCount := 0 |}.

Definition setWorker (i : nat) (w : Worker) (st : SaveState) : SaveState :=
  {| workers := <[i := w]> (workers st);
     senders := senders st; closed := closed st;
     remaining := remaining st; successAlerts := successAlerts st;
     successCount := successCount st; failedCount := failedCount st |}.

(** The moves that worker [i] can take part in; [save a] says whether the
    transaction of [s.save(a)] commits. *)
Definition worker_moves (save : Alert → bool) (st : SaveState) (i : nat)
  : list SaveState :=
  match workers st !! i with
  | Some Receiving =>
      match senders st with
      | a :: rest =>
          [ {| workers :=
                 <[i := if save a then SendingSuccess a else SendingError]>
                   (workers st);
               senders := rest; closed := closed st;
               remaining := remaining st; successAlerts := successAlerts st;
               successCount := successCount st;
               failedCount := failedCount st |} ]
      | [] => if closed st then [ setWorker i Exited st ] else []
      end
  | Some (SendingSuccess a) =>
      match remaining st with
      | S n =>
          [ {| workers := <[i := Receiving]> (workers st);
               senders := senders st; closed := closed st;
               remaining := n; successAlerts := successAlerts st ++ [a];
               successCount := S (successCount st);
               failedCount := failedCount st |} ]
      | O => []
      end
  | Some SendingError =>
      match remaining st with
      | S n =>
          [ {| workers := <[i := Receiving]> (workers st);
               senders := senders st; closed := closed st;
               remaining := n; successAlerts := successAlerts st;
               successCount := successCount st;
               failedCount := S (failedCount st) |} ]
      | O => []
      end
  | Some Exited | None => []
  end.

(** Every state that one move leads to. *)
Definition moves (save : Alert → bool) (st : SaveState) : list SaveState :=
  flat_map (worker_moves save st) (seq 0 (length (workers st))).

Definition step (save : Alert → bool) (st st' : SaveState) : Prop :=
  st' ∈ moves save st.

(** [Save] returns [l] when some run of the goroutines leads from the
    initial state to a state in which the collecting loop is over. *)
Definition Save_returns (save : Alert → bool) (opts : Options)
    (alerts l : Alerts) : Prop :=
  ∃ st, rtc (step save) (Save_init opts alerts) st
        ∧ remaining st = 0%nat ∧ successAlerts st = l.

(** A run under the scheduler that always takes the first move. *)
Inductive Outcome :=
  | Returns (l : Alerts)
  | Blocked
  | OutOfFuel.

Fixpoint Save_run (fuel : nat) (save : Alert → bool) (st : SaveState)
  : Outcome :=
  match remaining st with
  | O => Returns (successAlerts st)
  | S _ =>
      match moves save st with
      | [] => Blocked
      | st' :: _ =>
          match fuel with
          | O => OutOfFuel
          | S fuel' => Save_run fuel' save st'
          end
      end
  end.

Definition Save (fuel : nat) (save : Alert → bool) (opts : Options)
    (alerts : Alerts) : Outcome :=
  Save_run fuel save (Save_init opts alerts).

End storage.

(** ** The components as they call each other *)

Module wiring.
Import alert.

(** One pass of the loop of [Storage.Run], which is also the last pass that
    [Storage.Stop] makes: pull, save, mark. *)
Definition Run_cycle (save : Alert → bool) (opts : storage.Options)
    (clock : nat → Time) (b b' : gmap string Alert) : Prop :=
  ∃ successes,
    storage.Save_returns save opts (buffer.GetUnloads b) successes
    ∧ b' = buffer.SetLoads clock successes b.

(** The four activities that touch the buffer: a webhook request that
    decodes its alerts and calls [Update], a reconciliation sweep, an
    eviction sweep and a pass of the storage engine. *)
Inductive Activity := Webhook | Sync | Gc | StorageCycle.

Inductive step : Activity → gmap string Alert → gmap string Alert → Prop :=
  | step_webhook acquired (payload : list (Time * Alert)) b :
      step Webhook b
        (buffer.Update acquired b
           ((λ p, UnmarshalJSON p.1 p.2) <$> payload)).1
  | step_sync fetched clock b :
      step Sync b (buffer.sync fetched clock b).1
  | step_gc clock lifetime b :
      step Gc b (buffer.gc clock lifetime b)
  | step_storage save opts clock b b' :
      Run_cycle save opts clock b b' →
      step StorageCycle b b'.

Definition reachable (b0 b : gmap string Alert) : Prop :=
  rtc (λ b1 b2, ∃ act, step act b1 b2) b0 b.

End wiring.

(** ** Sample records *)

Module samples.
Import alert.

Definition t0 : Time := mkTime 1546425106054000000 "UTC".
Definition t1 : Time := mkTime 1546425406054000000 "UTC".
Definition t2 : Time := mkTime 1546425999000000000 "UTC".

(** A resolved alert, as the webhook test of the package decodes it. *)
Definition a0 : Alert :=
  {| Loaded := false; LoadedAt := t2;
     Fingerprint := "dd19ae3d4e06ac55"; Status := Resolved;
     StartsAt := t0; EndsAt := t1;
     Labels := {[ "severity" := "critical" ]};
     Annotations := {[ "summary" := "Non ephemeral host is DOWN" ]};
     GeneratorURL := "http://prometheus.int/graph" |}.

(** The same alert, stored and already persisted. *)
Definition a0_saved : Alert := buffer.markLoaded t1 a0.

(** A buffer that holds the alert unsaved, and one that holds it saved. *)
Definition unsaved : gmap string Alert := {[ Key a0 := a0 ]}.
Definition saved : gmap string Alert := {[ Key a0 := a0_saved ]}.

(** The same alert with another value for its one annotation. *)
Definition a0_changed : Alert :=
  {| Loaded := false; LoadedAt := t2;
     Fingerprint := "dd19ae3d4e06ac55"; Status := Resolved;
     StartsAt := t0; EndsAt := t1;
     Labels := {[ "severity" := "critical" ]};
     Annotations := {[ "summary" := "Host is back" ]};
     GeneratorURL := "http://prometheus.int/graph" |}.

(** The Location objects of four timestamps with the offset +05:30, one
    allocated for each timestamp that is decoded. *)
Definition zone1 : Location := "+05:30, first object".
Definition zone2 : Location := "+05:30, second object".
Definition zone3 : Location := "+05:30, third object".
Definition zone4 : Location := "+05:30, fourth object".

(** The alert [a0] sent with its timestamps at the offset +05:30, as the
    buffer holds it once it is persisted, and as the next request with the
    same body delivers it. *)
Definition a5_saved : Alert :=
  {| Loaded := true; LoadedAt := t1;
     Fingerprint := "dd19ae3d4e06ac55"; Status := Resolved;
     StartsAt := mkTime (unixNano t0) zone1;
     EndsAt := mkTime (unixNano t1) zone2;
     Labels := {[ "severity" := "critical" ]};
     Annotations := {[ "summary" := "Non ephemeral host is DOWN" ]};
     GeneratorURL := "http://prometheus.int/graph" |}.

Definition a5_again : Alert :=
  {| Loaded := false; LoadedAt := t2;
     Fingerprint := "dd19ae3d4e06ac55"; Status := Resolved;
     StartsAt := mkTime (unixNano t0) zone3;
     EndsAt := mkTime (unixNano t1) zone4;
     Labels := {[ "severity" := "critical" ]};
     Annotations := {[ "summary" := "Non ephemeral host is DOWN" ]};
     GeneratorURL := "http://prometheus.int/graph" |}.

(** The buffer that holds the persisted record. *)
Definition saved5 : gmap string Alert := {[ Key a5_saved := a5_saved ]}.

(** A firing alert and one whose start is a nanosecond later. *)
Definition f0 : Alert :=
  {| Loaded := false; LoadedAt := t2;
     Fingerprint := "077bf4e884599215"; Status := Firing;
     StartsAt := t0; EndsAt := t1;
     Labels := {[ "cluster" := "test" ]};
     Annotations := ∅;
     GeneratorURL := "/graph" |}.

Definition f0_later : Alert :=
  {| Loaded := false; LoadedAt := t2;
     Fingerprint := "077bf4e884599215"; Status := Firing;
     StartsAt := mkTime (unixNano t0 + 1) "UTC"; EndsAt := t1;
     Labels := {[ "cluster" := "test" ]};
     Annotations := ∅;
     GeneratorURL := "/graph" |}.

(** A firing alert that starts five minutes after [f0]. *)
Definition f1 : Alert :=
  {| Loaded := false; LoadedAt := t2;
     Fingerprint := "077bf4e884599215"; Status := Firing;
     StartsAt := t1; EndsAt := t1;
     Labels := {[ "cluster" := "test" ]};
     Annotations := ∅;
     GeneratorURL := "/graph" |}.

(** The buffer [{A: firing, B: firing}] of two instances of one alert. *)
Definition twoFiring : gmap string Alert :=
  <[Key f0 := f0]> (<[Key f1 := f1]> ∅).

(** A run of the wired buffer from [unsaved]: a webhook request brings the
    changed alert, then a reconciliation sweep runs against a controller
    that reports nothing. *)
Definition wiredRun : gmap string Alert :=
  (buffer.sync (Some []) (λ _, (t2, t2))
     (buffer.Update true unsaved
        ((λ p, UnmarshalJSON p.1 p.2) <$> [(t2, a0_changed)])).1).1.

End samples.

(** ** Predicates on records and buffers *)

Import alert.

(** Two records have the same content when they agree on every field but the
    two that record persistence; the times agree as [==] has it. *)
Definition sameContent (a b : Alert) : Prop :=
  Fingerprint a = Fingerprint b ∧ Status a = Status b
  ∧ StartsAt a = StartsAt b ∧ EndsAt a = EndsAt b
  ∧ GeneratorURL a = GeneratorURL b
  ∧ Annotations a = Annotations b ∧ Labels a = Labels b.

(** Two records are the same delivery when they agree on every field but the
    two that record persistence, the start and the end as instants: what two
    requests with the same body decode to, whichever Location objects the
    decoder allocates for the timestamps. *)
Definition sameDelivery (a b : Alert) : Prop :=
  Fingerprint a = Fingerprint b ∧ Status a = Status b
  ∧ unixNano (StartsAt a) = unixNano (StartsAt b)
  ∧ unixNano (EndsAt a) = unixNano (EndsAt b)
  ∧ GeneratorURL a = GeneratorURL b
  ∧ Annotations a = Annotations b ∧ Labels a = Labels b.

(** No record of the buffer is marked as persisted. *)
Definition unloaded (b : gmap string Alert) : Prop :=
  ∀ key a, b !! key = Some a → Loaded a = false.

(** Every record that is [Loaded] in [b'] was already [Loaded] in [b]. *)
Definition noNewLoaded (b b' : gmap string Alert) : Prop :=
  ∀ key a', b' !! key = Some a' → Loaded a' = true →
    ∃ a, b !! key = Some a ∧ Loaded a = true.

(** ** Package buffer: the snapshot *)

Module snapshot.
Import alert.

(** [DeepCopy]: the records of the map, copied by value into a slice.  Go
    visits the entries of a map in an order that it does not fix; the list
    of the model stands for any of these orders, and what is proved of it
    does not depend on the order. *)
Definition DeepCopy (b : gmap string Alert) : Alerts :=
  (map_to_list b).*2.

End snapshot.

(** ** Package http: asking the controller *)

Module http.

(** The alert as the controller's API sends it. *)
Record Alert := mkAlert {
  Fingerprint : string;
  Status : string;
  StartsAt : Time;
  EndsAt : Time;
  Labels : gmap string string;
  Annotations : gmap string string;
  GeneratorURL : string
}.

Definition Alerts := list Alert.

(** [a.UnmarshalJSON(data)]: the record is reset to a firing alert with
    empty maps and the JSON fields are copied in.  [j] carries the decoded
    JSON fields; [Status] is tagged [json:"-"], so it is never read. *)
Definition UnmarshalJSON (j : Alert) : Alert :=
  {| Fingerprint := Fingerprint j; Status := alert.Firing;
     StartsAt := StartsAt j; EndsAt := EndsAt j;
     Labels := Labels j; Annotations := Annotations j;
     GeneratorURL := GeneratorURL j |}.

(** [%t] *)
Definition fmtBool (x : bool) : string := if x then "true" else "false".

(** The URL that is asked. *)
Definition url (addr : string) (active silenced inhibited unprocessed : bool)
  : string :=
  "http://" +:+ addr +:+ "/api/v2/alerts?active=" +:+ fmtBool active
  +:+ "&silenced=" +:+ fmtBool silenced
  +:+ "&inhibited=" +:+ fmtBool inhibited
  +:+ "&unprocessed=" +:+ fmtBool unprocessed.

(** What happens to the request: no request can be built for the URL,
    sending it fails, or an answer comes back with a status code and a body;
    the body is [None] when it does not decode as a list of alerts and
    holds the JSON fields of the alerts otherwise. *)
Inductive Exchange :=
  | RequestInvalid
  | SendFailed
  | Answered (statusCode : Z) (body : option Alerts).

Definition StatusOK : Z := 200.

(** The four errors that the function wraps. *)
Inductive Error :=
  | CannotCreateRequest
  | CannotSend
  | RequestFailed (statusCode : Z)
  | CannotDecode.

(** The element that the last loop appends for [a]; [now] is the reading of
    [time.Now()]. *)
Definition toAlert (now : Time) (a : Alert) : alert.Alert :=
  {| alert.Loaded := false; alert.LoadedAt := now;
     alert.Fingerprint := Fingerprint a; alert.Status := Status a;
     alert.StartsAt := StartsAt a; alert.EndsAt := EndsAt a;
     alert.Labels := Labels a; alert.Annotations := Annotations a;
     alert.GeneratorURL := GeneratorURL a |}.

(** [GetFiringAlertsFromAlertmanager]; [world] says what happens to a
    request for a URL and [clock i] is the reading of the clock for the
    [i]-th alert of the answer. *)
Definition GetFiringAlertsFromAlertmanager (world : string → Exchange)
    (clock : nat → Time)
    (addr : string) (active silenced inhibited unprocessed : bool)
  : alert.Alerts * option Error :=
  match world (url addr active silenced inhibited unprocessed) with
  | RequestInvalid => ([], Some CannotCreateRequest)
  | SendFailed => ([], Some CannotSend)
  | Answered code body =>
      if bool_decide (code ≠ StatusOK) then ([], Some (RequestFailed code))
      else match body with
           | None => ([], Some CannotDecode)
           | Some rlt =>
               (imap (λ i j, toAlert (clock i) (UnmarshalJSON j)) rlt, None)
           end
  end.

End http.

(** ** Package buffer: the sweep with its request *)

Module reconcile.
Import alert.

(** [sync] as a whole: the request to the controller at the address of the
    options, for the active alerts only, and then the sweep of the buffer. *)
Definition sync (world : string → http.Exchange) (fetchClock : nat → Time)
    (clock : string → Time * Time) (opts : buffer.Options)
    (b : gmap string Alert) : gmap string Alert * bool :=
  match http.GetFiringAlertsFromAlertmanager world fetchClock
          (buffer.alertmanagerAddr opts) true false false false with
  | (_, Some _) => buffer.sync None clock b
  | (alerts, None) => buffer.sync (Some alerts) clock b
  end.

(** [Stop], once the two loops have ended: one last sweep, whose error is
    dropped. *)
Definition Stop (world : string → http.Exchange) (fetchClock : nat → Time)
    (clock : string → Time * Time) (opts : buffer.Options)
    (b : gmap string Alert) : gmap string Alert :=
  (sync world fetchClock clock opts b).1.

End reconcile.

(** ** Package webhook *)

Module webhook.
Import alert.

Record Options := mkOptions {
  address : string;
  supportVersion : string;
  gracePeriod : Duration
}.

Definition defaultOptions : Options :=
  {| address := ":9567"; supportVersion := "4";
     gracePeriod := 15 * Second |}.

Definition WithAddress (x : string) (o : Options) : Options :=
  {| address := x; supportVersion := supportVersion o;
     gracePeriod := gracePeriod o |}.

Definition WithGracePeriod (x : Duration) (o : Options) : Options :=
  {| address := address o; supportVersion := supportVersion o;
     gracePeriod := x |}.

Definition WithSupportVersion (x : string) (o : Options) : Options :=
  {| address := address o; supportVersion := x;
     gracePeriod := gracePeriod o |}.

(** The options of the server that [New] builds: the defaults, changed by
    the given options in their order. *)
Definition New (opts : list (Options → Options)) : Options :=
  foldl (λ o opt, opt o) defaultOptions opts.

(** The fields of the alert group that the handler uses: the version, and
    the alerts with the clock reading at which each is decoded. *)
Record AlertGroup := mkAlertGroup {
  Version : string;
  Alerts : list (Time * Alert)
}.

(** The body of a request: reading it fails, it is not the JSON of an alert
    group, or it decodes. *)
Inductive Body :=
  | Unreadable
  | Malformed
  | Decoded (ag : AlertGroup).

(** What the client gets: a status code, or nothing when the handler
    panics. *)
Inductive Response :=
  | Code (statusCode : Z)
  | Aborted.

Definition StatusOK : Z := 200.
Definition StatusBadRequest : Z := 400.
Definition StatusInternalServerError : Z := 500.

(** [postWebhook]; [acquired] says whether [Update] gets the lock before the
    context of the request is done.  A handler that returns without writing
    a header answers 200. *)
Definition postWebhook (o : Options) (acquired : bool) (body : Body)
    (b : gmap string Alert) : gmap string Alert * Response :=
  match body with
  | Unreadable => (b, Code StatusBadRequest)
  | Malformed => (b, Code StatusBadRequest)
  | Decoded ag =>
      if bool_decide (Version ag ≠ supportVersion o)
      then (b, Code StatusBadRequest)
      else
        match buffer.Update acquired b
                ((λ p, UnmarshalJSON p.1 p.2) <$> Alerts ag) with
        | (b', buffer.LockFailed) => (b', Code StatusInternalServerError)
        | (b', buffer.NilDereference) => (b', Aborted)
        | (b', buffer.Done) => (b', Code StatusOK)
        end
  end.

End webhook.

(** ** Package storage: saving one record *)

Module pg.
Import alert.

Section tables.

(** What a column of the store keeps of a time, for instance the time at
    the precision of the column type.  The statements compare and store
    these values. *)
Context {timestamp : Type} `{EqDecision timestamp}.
Variable toTimestamp : Time → timestamp.

(** A row of the table [Alert]. *)
Record AlertRow := mkAlertRow {
  id : Z;
  fingerprint : string;
  status : string;
  startsAt : timestamp;
  endsAt : timestamp;
  generatorURL : string
}.

(** The three tables: [Alert] and [AlertLabel] as the lists of their rows,
    the rows of [AlertLabel] being (AlertID, Label, Value), and
    [AlertAnnotation], whose rows the conflict target (AlertID, Annotation)
    identifies, as a map from these pairs to the value. *)
Record Database := mkDatabase {
  Alert : list AlertRow;
  AlertLabel : list (Z * string * string);
  AlertAnnotation : gmap (Z * string) string
}.

(** The calls of [save] that can return an error. *)
Inductive Statement :=
  | Acquire
  | Begin
  | SelectId
  | InsertAlert
  | InsertLabel (k : string)
  | UpdateAlert
  | UpsertAnnotation (k : string)
  | Commit.

(** [WHERE fingerprint = $1 AND startsAt = $2] *)
Definition matches (a : alert.Alert) (r : AlertRow) : bool :=
  bool_decide (fingerprint r = Fingerprint a)
  && bool_decide (startsAt r = toTimestamp (StartsAt a)).

(** [id := -1] and the [Scan(&id)] of the first row of the [SELECT]; with
    no row, [id] stays -1. *)
Definition selectId (db : Database) (a : alert.Alert) : Z :=
  match List.find (matches a) (Alert db) with
  | Some r => id r
  | None => -1
  end.

(** The row of [INSERT INTO Alert ... RETURNING id], with the id that the
    store gives it. *)
Definition newRow (newId : Z) (a : alert.Alert) : AlertRow :=
  {| id := newId; fingerprint := Fingerprint a; status := Status a;
     startsAt := toTimestamp (StartsAt a);
     endsAt := toTimestamp (EndsAt a);
     generatorURL := GeneratorURL a |}.

(** [UPDATE Alert SET status = $1, endsAt = $2, generatorURL = $3 WHERE
    fingerprint = $4 and startsat = $5], on one row. *)
Definition updateRow (a : alert.Alert) (r : AlertRow) : AlertRow :=
  if matches a r
  then {| id := id r; fingerprint := fingerprint r; status := Status a;
          startsAt := startsAt r; endsAt := toTimestamp (EndsAt a);
          generatorURL := GeneratorURL a |}
  else r.

(** The loop over [a.Labels]: one [INSERT INTO AlertLabel] per label, until
    one fails. *)
Fixpoint insertLabels (fails : Statement → bool) (alertId : Z)
    (labels : list (string * string)) (rows : list (Z * string * string))
  : option (list (Z * string * string)) :=
  match labels with
  | [] => Some rows
  | (k, v) :: rest =>
      if fails (InsertLabel k) then None
      else insertLabels fails alertId rest (rows ++ [(alertId, k, v)])
  end.

(** The loop over [a.Annotations]: one [INSERT ... ON CONFLICT (AlertID,
    Annotation) DO UPDATE SET Value = EXCLUDED.Value] per annotation, until
    one fails. *)
Fixpoint upsertAnnotations (fails : Statement → bool) (alertId : Z)
    (annotations : list (string * string))
    (table : gmap (Z * string) string) : option (gmap (Z * string) string) :=
  match annotations with
  | [] => Some table
  | (k, v) :: rest =>
      if fails (UpsertAnnotation k) then None
      else upsertAnnotations fails alertId rest (<[(alertId, k) := v]> table)
  end.

(** The branch on [id == -1]: the id of the row that the annotations go to
    and the tables after the insert or the update. *)
Definition insertOrUpdate (fails : Statement → bool) (newId : Z)
    (db : Database) (a : alert.Alert) : option (Z * Database) :=
  if bool_decide (selectId db a = -1)
  then
    if fails InsertAlert then None
    else
      match insertLabels fails newId (map_to_list (Labels a))
              (AlertLabel db) with
      | None => None
      | Some labels =>
          Some (newId,
                {| Alert := Alert db ++ [newRow newId a];
                   AlertLabel := labels;
                   AlertAnnotation := AlertAnnotation db |})
      end
  else
    if fails UpdateAlert then None
    else Some (selectId db a,
               {| Alert := updateRow a <$> Alert db;
                  AlertLabel := AlertLabel db;
                  AlertAnnotation := AlertAnnotation db |}).

(** The statements between [Begin] and [Commit], on the tables as the
    transaction sees them; [None] when a statement fails. *)
Definition statements (fails : Statement → bool) (newId : Z)
    (db : Database) (a : alert.Alert) : option Database :=
  if fails SelectId then None
  else
    match insertOrUpdate fails newId db a with
    | None => None
    | Some (alertId, tx) =>
        match upsertAnnotations fails alertId
                (map_to_list (Annotations a)) (AlertAnnotation tx) with
        | None => None
        | Some annotations =>
            Some {| Alert := Alert tx; AlertLabel := AlertLabel tx;
                    AlertAnnotation := annotations |}
        end
    end.

(** [save], one transaction run on its own: [fails] says which calls return
    an error and [newId] is the id that the store gives to a new row.  The
    result is the tables afterwards and whether [save] returns an error;
    a transaction that is not committed is rolled back. *)
Definition save (fails : Statement → bool) (newId : Z)
    (db : Database) (a : alert.Alert) : Database * bool :=
  if fails Acquire then (db, true)
  else if fails Begin then (db, true)
  else
    match statements fails newId db a with
    | None => (db, true)
    | Some tx => if fails Commit then (db, true) else (tx, false)
    end.

End tables.

End pg.

(** ** Auxiliary definitions for the further properties *)

(** The record [a] with other labels. *)
Definition setLabels (l : gmap string string) (a : Alert) : Alert :=
  {| Loaded := Loaded a; LoadedAt := LoadedAt a;
     Fingerprint := Fingerprint a; Status := Status a;
     StartsAt := StartsAt a; EndsAt := EndsAt a;
     Labels := l; Annotations := Annotations a;
     GeneratorURL := GeneratorURL a |}.

Import Stdlib.Strings.Ascii.

(** Strings without a colon; the output of [%d] is one. *)
Fixpoint colonFree (s : string) : bool :=
  match s with
  | EmptyString => true
  | String c s' => negb (Ascii.eqb c ":"%char) && colonFree s'
  end.

(** What every move keeps, relative to a state [st0] from which the run
    started. *)
Definition collected_from (save : Alert → bool)
    (st0 st : storage.SaveState) : Prop :=
  (storage.successCount st + storage.failedCount st + storage.remaining st
   = storage.successCount st0 + storage.failedCount st0
     + storage.remaining st0)%nat
  ∧ (length (storage.successAlerts st) + storage.successCount st0
     = length (storage.successAlerts st0) + storage.successCount st)%nat
  ∧ (∃ taken, storage.senders st0 = taken ++ storage.senders st)
  ∧ ∀ a, a ∈ storage.successAlerts st
         ∨ storage.SendingSuccess a ∈ storage.workers st →
         a ∈ storage.successAlerts st0
         ∨ storage.SendingSuccess a ∈ storage.workers st0
         ∨ (save a = true ∧ a ∈ storage.senders st0).

(** Sample data for the further properties: a state of [Save] in which two
    records are being sent on [intermediate], the state after a worker took
    the first, and an answer of the controller with one alert. *)
Definition fed : storage.SaveState :=
  {| storage.workers := [storage.Receiving; storage.Receiving];
     storage.senders := [samples.a0; samples.f0];
     storage.closed := false;
     storage.remaining := 2;
     storage.successAlerts := [];
     storage.successCount := 0;
     storage.failedCount := 0 |}.

Definition fedTaken : storage.SaveState :=
  {| storage.workers := [storage.SendingSuccess samples.a0; storage.Receiving];
     storage.senders := [samples.f0];
     storage.closed := false;
     storage.remaining := 2;
     storage.successAlerts := [];
     storage.successCount := 0;
     storage.failedCount := 0 |}.

Definition savesResolved (a : Alert) : bool :=
  bool_decide (Status a = Resolved).

Definition reported : http.Alert :=
  {| http.Fingerprint := "077bf4e884599215"; http.Status := "suppressed";
     http.StartsAt := samples.t0; http.EndsAt := samples.t1;
     http.Labels := {[ "cluster" := "test" ]};
     http.Annotations := ∅;
     http.GeneratorURL := "/graph" |}.

Definition answers (x : http.Exchange) : string → http.Exchange := λ _, x.

(** Sample data for the store: times kept in microseconds, a run in which
    no call fails, empty tables, and the tables after the sample alert was
    saved with id 1. *)
Definition micros (t : Time) : Z := unixNano t `div` 1000.

Definition noFailure (s : pg.Statement) : bool := false.

Definition emptyTables : pg.Database (timestamp := Z) :=
  {| pg.Alert := []; pg.AlertLabel := []; pg.AlertAnnotation := ∅ |}.

Definition savedOnce : pg.Database (timestamp := Z) :=
  (pg.save micros noFailure 1 emptyTables samples.a0).1.

Definition relabelled : Alert :=
  setLabels {[ "severity" := "warning" ]} samples.a0.

(** * Properties *)

(** ** Content comparison *)

Lemma labelsWithin_spec (la lb : gmap string string) :
  labelsWithin la lb = true ↔ la ⊆ lb.
Proof.
  unfold labelsWithin. rewrite forallb_forall, map_subseteq_spec. split.
  - intros H k v Hk.
    specialize (H (k, v)). rewrite <- list_elem_of_In in H.
    rewrite elem_of_map_to_list in H. specialize (H Hk).
    by apply bool_decide_eq_true in H.
  - intros H [k v] Hin. apply list_elem_of_In, elem_of_map_to_list in Hin.
    apply bool_decide_eq_true. simpl. by apply H.
Qed.

Lemma Equal_spec (a b : Alert) :
  Equal a b = true ↔
    Fingerprint a = Fingerprint b ∧ Status a = Status b
    ∧ StartsAt a = StartsAt b ∧ EndsAt a = EndsAt b
    ∧ GeneratorURL a = GeneratorURL b
    ∧ size (Annotations a) = size (Annotations b)
    ∧ Labels a ⊆ Labels b.
Proof.
  unfold Equal. rewrite <- labelsWithin_spec.
  repeat case_bool_decide; simpl; intuition congruence.
Qed.

Lemma sameContent_Equal (a b : Alert) : sameContent a b → Equal a b = true.
Proof.
  intros (? & ? & ? & ? & ? & Ha & Hl). apply Equal_spec.
  rewrite Ha, Hl. repeat split; done.
Qed.

(** ** The tests of package alert *)

(** [TestIsExpired]: a resolved record that is not [Loaded] is not expired;
    a resolved, [Loaded] record of an hour ago is expired after a minute; a
    firing one is not. *)
Example TestIsExpired :
  IsExpired samples.t2 Minute
    (mkAlert false samples.t2 "" Resolved zeroTime zeroTime ∅ ∅ "") = false
  ∧ IsExpired samples.t2 Minute
      (mkAlert true (mkTime (unixNano samples.t2 - 60 * Minute) "UTC")
         "" Resolved zeroTime zeroTime ∅ ∅ "") = true
  ∧ IsExpired samples.t2 Minute
      (mkAlert true (mkTime (unixNano samples.t2 - 60 * Minute) "UTC")
         "" Firing zeroTime zeroTime ∅ ∅ "") = false.
Proof. repeat split; vm_compute; reflexivity. Qed.

(** [TestSetResolved] *)
Example TestSetResolved :
  SetResolved samples.t2 samples.t2
    (mkAlert true zeroTime "" Firing zeroTime zeroTime ∅ ∅ "")
  = mkAlert false samples.t2 "" Resolved zeroTime samples.t2 ∅ ∅ "".
Proof. reflexivity. Qed.

(** The key of the sample alert, the sign and zero of [%d], and the key of
    [DefaultAlert()], whose start is Go's zero time. *)
Example Key_a0 : Key samples.a0 = "dd19ae3d4e06ac55:1546425106054".
Proof. vm_compute. reflexivity. Qed.

Example Key_before_epoch :
  Key (mkAlert false zeroTime "fp" Firing (mkTime (-1) "UTC") zeroTime ∅ ∅ "")
  = "fp:-1"
  ∧ Key (mkAlert false zeroTime "fp" Firing (mkTime 0 "UTC") zeroTime ∅ ∅ "")
    = "fp:0"
  ∧ UnixMilli zeroTime = -62135596800000
  ∧ Key (DefaultAlert samples.t2) = ":-62135596800000".
Proof. repeat split; vm_compute; reflexivity. Qed.

(** ** Update *)

Lemma Update_body_absent (b : gmap string Alert) (a : Alert) :
  b !! Key a = None → buffer.Update_body b a = None.
Proof. intros H. unfold buffer.Update_body. by rewrite H. Qed.

Lemma Update_body_duplicate (b : gmap string Alert) (a stored : Alert) :
  b !! Key a = Some stored → Equal a stored = true →
  buffer.Update_body b a
  = Some (<[Key a := buffer.setLoadedAt (LoadedAt a) stored]> b).
Proof. intros H HE. unfold buffer.Update_body. by rewrite H, HE. Qed.

Lemma Update_body_changed (b : gmap string Alert) (a stored : Alert) :
  b !! Key a = Some stored → Equal a stored = false →
  buffer.Update_body b a = Some (<[Key a := a]> b).
Proof. intros H HE. unfold buffer.Update_body. by rewrite H, HE. Qed.

Lemma Update_singleton (b b' : gmap string Alert) (a : Alert) :
  buffer.Update_body b a = Some b' → buffer.Update true b [a] = (b', buffer.Done).
Proof. intros H. simpl. by rewrite H. Qed.

(** The duplicate branch.  A record that comes in with the content of the
    stored record of its key, its start and end [==] to the stored ones, is
    a duplicate for [Equal]: the iteration of [Update] for it, and so the
    call of [Update] on it alone, returns normally; the map keeps its keys,
    so the key still has one entry; the stored record keeps its [Loaded]
    flag and its content, and its [LoadedAt] becomes the incoming
    [LoadedAt]; no other entry changes. *)
Theorem Update_duplicate_keeps_Loaded
    (b : gmap string Alert) (a stored : Alert) :
  b !! Key a = Some stored →
  sameContent a stored →
  ∃ stored' b',
    buffer.Update_body b a = Some b'
    ∧ buffer.Update true b [a] = (b', buffer.Done)
    ∧ b' !! Key a = Some stored'
    ∧ Loaded stored' = Loaded stored
    ∧ LoadedAt stored' = LoadedAt a
    ∧ sameContent stored' stored
    ∧ dom b' = dom b
    ∧ size b' = size b
    ∧ ∀ key, key ≠ Key a → b' !! key = b !! key.
Proof.
  intros Hb Hc.
  pose proof (Update_body_duplicate b a stored Hb (sameContent_Equal _ _ Hc))
    as Hbody.
  eexists _, _. split; [exact Hbody|].
  split; [by apply Update_singleton|].
  split; [apply lookup_insert_eq|].
  repeat split; try done.
  - apply dom_insert_lookup_L. by eexists.
  - by apply map_size_insert_Some.
  - intros key Hne. by apply lookup_insert_ne.
Qed.

Lemma Update_duplicate_keeps_Loaded_witness :
  ∃ stored' b',
    buffer.Update_body samples.saved samples.a0 = Some b'
    ∧ buffer.Update true samples.saved [samples.a0] = (b', buffer.Done)
    ∧ b' !! Key samples.a0 = Some stored'
    ∧ Loaded stored' = Loaded samples.a0_saved
    ∧ LoadedAt stored' = LoadedAt samples.a0
    ∧ sameContent stored' samples.a0_saved
    ∧ dom b' = dom samples.saved
    ∧ size b' = size samples.saved
    ∧ ∀ key, key ≠ Key samples.a0 → b' !! key = samples.saved !! key.
Proof.
  apply (Update_duplicate_keeps_Loaded samples.saved samples.a0
           samples.a0_saved).
  - apply lookup_singleton_eq.
  - repeat split; reflexivity.
Defined.

(** C1, on the code.  The stored record is persisted and its timestamps were
    sent with the offset +05:30; the next request delivers the same alert
    again: the same fingerprint, status, instants of start and end, labels,
    annotations and URL, under the same key.  The decoder has allocated new
    Location objects for the timestamps, and [Equal] compares the times
    with [!=], which compares the Location pointers, so [Equal] is false:
    [Update] replaces the stored record by the incoming one, and the flag
    [Loaded], which was true, is false afterwards. *)
Theorem Update_redelivery_with_offset_resets_Loaded :
  sameDelivery samples.a5_again samples.a5_saved
  ∧ Key samples.a5_again = Key samples.a5_saved
  ∧ samples.saved5 !! Key samples.a5_again = Some samples.a5_saved
  ∧ Loaded samples.a5_saved = true
  ∧ bool_decide (StartsAt samples.a5_again ≠ StartsAt samples.a5_saved) = true
  ∧ Equal samples.a5_again samples.a5_saved = false
  ∧ buffer.Update true samples.saved5 [samples.a5_again]
    = ({[ Key samples.a5_saved := samples.a5_again ]}, buffer.Done)
  ∧ Loaded samples.a5_again = false.
Proof.
  assert (HK : Key samples.a5_again = Key samples.a5_saved)
    by (vm_compute; reflexivity).
  assert (HE : Equal samples.a5_again samples.a5_saved = false)
    by (vm_compute; reflexivity).
  assert (Hl : samples.saved5 !! Key samples.a5_again = Some samples.a5_saved).
  { rewrite HK. apply lookup_singleton_eq. }
  split; [repeat split; reflexivity|].
  split; [exact HK|].
  split; [exact Hl|].
  split; [reflexivity|].
  split; [vm_compute; reflexivity|].
  split; [exact HE|].
  split; [|reflexivity].
  rewrite (Update_singleton _ _ _
             (Update_body_changed _ _ _ Hl HE)).
  rewrite HK. unfold samples.saved5. by rewrite insert_singleton_eq.
Qed.

(** C4, on the code.  The stored record is persisted and the incoming record
    differs from it in the value of its annotation only.  [Equal] compares
    the number of annotations and not their values, so [Update] takes the
    record for a duplicate: the stored record keeps its old annotation and
    stays [Loaded]; it is not replaced by the incoming record. *)
Theorem Update_changed_annotation_not_replaced :
  Key samples.a0_changed = Key samples.a0
  ∧ Annotations samples.a0_changed ≠ Annotations samples.a0_saved
  ∧ Equal samples.a0_changed samples.a0_saved = true
  ∧ buffer.Update true samples.saved [samples.a0_changed]
    = ({[ Key samples.a0 :=
            buffer.setLoadedAt (LoadedAt samples.a0_changed) samples.a0_saved ]},
       buffer.Done)
  ∧ Loaded (buffer.setLoadedAt (LoadedAt samples.a0_changed) samples.a0_saved)
    = true
  ∧ Annotations
      (buffer.setLoadedAt (LoadedAt samples.a0_changed) samples.a0_saved)
    = Annotations samples.a0_saved.
Proof.
  assert (HE : Equal samples.a0_changed samples.a0_saved = true)
    by (vm_compute; reflexivity).
  split; [reflexivity|].
  split.
  { intros H.
    assert (Hl : Annotations samples.a0_changed !! "summary"
                 = Annotations samples.a0_saved !! "summary") by (by rewrite H).
    vm_compute in Hl. discriminate. }
  split; [exact HE|].
  split; [|split; reflexivity].
  vm_compute. reflexivity.
Qed.

(** C5, on the code.  [Update] does not branch on the presence of the key.
    On a buffer that does not hold the key of the first record of the batch
    (any buffer with that key deleted, the empty buffer among them) the
    call dereferences the nil pointer: it panics, nothing is inserted and
    the buffer is left as it was. *)
Theorem Update_unseen_key_panics
    (b : gmap string Alert) (a : Alert) (rest : Alerts) :
  buffer.Update true (delete (Key a) b) (a :: rest)
  = (delete (Key a) b, buffer.NilDereference)
  ∧ (buffer.Update true (delete (Key a) b) (a :: rest)).1 !! Key a = None
  ∧ buffer.Update true ∅ (a :: rest) = (∅, buffer.NilDereference).
Proof.
  assert (H : ∀ m : gmap string Alert, m !! Key a = None →
              buffer.Update true m (a :: rest) = (m, buffer.NilDereference)).
  { intros m Hm. simpl. by rewrite Update_body_absent. }
  rewrite !H by (apply lookup_delete_eq || apply lookup_empty).
  split; [done|]. split; [apply lookup_delete_eq|done].
Qed.

(** ** GetUnloads *)

(** C2, on the code.  [GetUnloads] returns the empty slice for every buffer;
    a buffer that holds a record with [Loaded = false] shows that the result
    is not the set of unsaved records. *)
Theorem GetUnloads_misses_unsaved :
  samples.unsaved !! Key samples.a0
    = Some samples.a0
  ∧ Loaded samples.a0 = false
  ∧ buffer.GetUnloads samples.unsaved = []
  ∧ ∀ b, buffer.GetUnloads b = [].
Proof.
  split; [apply lookup_singleton_eq|].
  split; [reflexivity|].
  split; reflexivity.
Qed.

(** ** The reconciliation sweep *)

Lemma sync_lookup (alerts : Alerts) (clock : string → Time * Time)
    (b : gmap string Alert) (key : string) :
  (buffer.sync (Some alerts) clock b).1 !! key
  = buffer.sync_entry (buffer.firingSet alerts) clock key <$> b !! key.
Proof.
  simpl. rewrite map_lookup_imap. by destruct (b !! key).
Qed.

Lemma sync_dom (alerts : Alerts) (clock : string → Time * Time)
    (b : gmap string Alert) :
  dom (buffer.sync (Some alerts) clock b).1 = dom b.
Proof.
  apply set_eq. intros key.
  by rewrite !elem_of_dom, sync_lookup, fmap_is_Some.
Qed.

Lemma firingSet_spec (alerts : Alerts) (key : string) :
  key ∈ buffer.firingSet alerts ↔ ∃ x, x ∈ alerts ∧ Key x = key.
Proof.
  unfold buffer.firingSet. rewrite elem_of_list_to_set, list_elem_of_fmap.
  split.
  - intros (x & -> & Hx). by exists x.
  - intros (x & Hx & <-). by exists x.
Qed.

(** C6.  One sweep of [sync] over a buffer whose records are stored under
    their keys, with the alerts that the controller reports: a record that
    was firing and whose key is not among the reported keys is resolved, its
    end is the clock reading taken when it is visited, it is not [Loaded]
    any more and the rest of its content is kept; a record whose key is
    reported, and a record that was not firing, stays as it was.  The sweep
    returns no error and neither adds nor removes a key. *)
Theorem sync_resolves_unreported_firing
    (alerts : Alerts) (clock : string → Time * Time)
    (b : gmap string Alert) (key : string) (a : Alert) :
  buffer.keyed b →
  b !! key = Some a →
  (buffer.sync (Some alerts) clock b).2 = false
  ∧ dom (buffer.sync (Some alerts) clock b).1 = dom b
  ∧ (Status a = Firing → Key a ∉ buffer.firingSet alerts →
     ∃ a', (buffer.sync (Some alerts) clock b).1 !! key = Some a'
           ∧ Status a' = Resolved
           ∧ EndsAt a' = (clock key).1
           ∧ Loaded a' = false
           ∧ Fingerprint a' = Fingerprint a ∧ StartsAt a' = StartsAt a
           ∧ Labels a' = Labels a ∧ Annotations a' = Annotations a
           ∧ GeneratorURL a' = GeneratorURL a)
  ∧ (Key a ∈ buffer.firingSet alerts →
     (buffer.sync (Some alerts) clock b).1 !! key = Some a)
  ∧ (Status a ≠ Firing →
     (buffer.sync (Some alerts) clock b).1 !! key = Some a).
Proof.
  intros Hkeyed Hb. rewrite (Hkeyed key a Hb).
  split; [done|]. split; [apply sync_dom|].
  rewrite sync_lookup, Hb. unfold buffer.sync_entry. simpl.
  repeat split.
  - intros Hs Hn. rewrite !bool_decide_eq_true_2 by done. simpl.
    eexists. split; [done|]. by repeat split.
  - intros Hin. by rewrite (bool_decide_eq_false_2 (key ∉ _)) by tauto.
  - intros Hs. rewrite (bool_decide_eq_false_2 (Status a = _)) by done.
    by rewrite andb_false_r.
Qed.

(** ** The eviction sweep *)

Lemma IsExpired_spec (now : Time) (t : Duration) (a : Alert) :
  IsExpired now t a = true
  ↔ Status a = Resolved ∧ Loaded a = true ∧ t < Since now (LoadedAt a).
Proof.
  unfold IsExpired. rewrite !andb_true_iff, !bool_decide_eq_true. tauto.
Qed.

Lemma gc_lookup (clock : string → Time) (lifetime : Duration)
    (b : gmap string Alert) (key : string) (a : Alert) :
  b !! key = Some a →
  buffer.gc clock lifetime b !! key
  = if IsExpired (clock key) lifetime a then None else Some a.
Proof.
  intros Hb. unfold buffer.gc.
  destruct (IsExpired (clock key) lifetime a) eqn:HE.
  - apply map_lookup_filter_None. right. intros a' Hb'. simpl.
    assert (a' = a) as -> by congruence. by rewrite HE.
  - apply map_lookup_filter_Some. by split.
Qed.

(** C7.  The eviction sweep removes the record stored at a key exactly when
    the record is resolved, is [Loaded], and the time since [LoadedAt], read
    when the record is tested, is greater than the lifetime; a record that
    is not removed is kept as it is.  So a record loaded exactly one
    lifetime ago is kept, and so are a firing record and a record that is
    not [Loaded], whatever their age. *)
Theorem gc_removes_exactly_expired
    (clock : string → Time) (lifetime : Duration)
    (b : gmap string Alert) (key : string) (a : Alert) :
  b !! key = Some a →
  (buffer.gc clock lifetime b !! key = None
   ↔ Status a = Resolved ∧ Loaded a = true
     ∧ lifetime < Since (clock key) (LoadedAt a))
  ∧ (buffer.gc clock lifetime b !! key ≠ None →
     buffer.gc clock lifetime b !! key = Some a)
  ∧ (Since (clock key) (LoadedAt a) = lifetime →
     buffer.gc clock lifetime b !! key = Some a)
  ∧ (Status a = Firing → buffer.gc clock lifetime b !! key = Some a)
  ∧ (Loaded a = false → buffer.gc clock lifetime b !! key = Some a).
Proof.
  intros Hb. rewrite (gc_lookup _ _ _ _ _ Hb).
  pose proof (IsExpired_spec (clock key) lifetime a) as HE.
  destruct (IsExpired (clock key) lifetime a).
  - destruct HE as [HE _]. destruct (HE eq_refl) as (Hs & Hl & Ht).
    repeat split; try done.
    + intros Heq. lia.
    + intros HF. rewrite HF in Hs. discriminate.
    + intros HF. congruence.
  - repeat split; try done.
    intros H. destruct HE as [_ HE]. by apply HE in H.
Qed.

(** ** Records are stored under their keys *)

Lemma keyed_empty : buffer.keyed ∅.
Proof. intros key a H. by rewrite lookup_empty in H. Qed.

Lemma keyed_insert (b : gmap string Alert) (key : string) (a : Alert) :
  Key a = key → buffer.keyed b → buffer.keyed (<[key := a]> b).
Proof.
  intros Hk Hb key' a' H. apply lookup_insert_Some in H as [[<- <-]|[_ H]].
  - done.
  - by apply Hb.
Qed.

Lemma keyed_Update_body (b b' : gmap string Alert) (a : Alert) :
  buffer.keyed b → buffer.Update_body b a = Some b' → buffer.keyed b'.
Proof.
  intros Hb. unfold buffer.Update_body.
  destruct (b !! Key a) as [stored|] eqn:Hs; [|done].
  destruct (Equal a stored); intros [= <-]; apply keyed_insert; try done.
  exact (Hb _ _ Hs).
Qed.

Lemma keyed_Update_loop (alerts : Alerts) (b : gmap string Alert) :
  buffer.keyed b → buffer.keyed (buffer.Update_loop b alerts).1.
Proof.
  revert b. induction alerts as [|a rest IH]; intros b Hb; simpl; [done|].
  destruct (buffer.Update_body b a) as [b'|] eqn:Hbody; [|done].
  apply IH. by eapply keyed_Update_body.
Qed.

Lemma keyed_sync fetched (clock : string → Time * Time)
    (b : gmap string Alert) :
  buffer.keyed b → buffer.keyed (buffer.sync fetched clock b).1.
Proof.
  intros Hb. destruct fetched as [alerts|]; [|done].
  intros key a'. rewrite sync_lookup.
  destruct (b !! key) as [a|] eqn:Ha; [|done]. intros [= <-].
  rewrite <- (Hb _ _ Ha). unfold buffer.sync_entry.
  by destruct (_ && _).
Qed.

Lemma keyed_gc (clock : string → Time) (lifetime : Duration)
    (b : gmap string Alert) :
  buffer.keyed b → buffer.keyed (buffer.gc clock lifetime b).
Proof.
  intros Hb key a H. apply map_lookup_filter_Some in H as [H _].
  by apply Hb.
Qed.

Lemma keyed_SetLoads_body (now : Time) (b : gmap string Alert) (a : Alert) :
  buffer.keyed b → buffer.keyed (buffer.SetLoads_body now b a).
Proof.
  intros Hb. unfold buffer.SetLoads_body.
  destruct (b !! Key a) as [source|] eqn:Hs; [|done].
  destruct (Equal source a); [|done].
  apply keyed_insert; [|done]. exact (Hb _ _ Hs).
Qed.

Lemma keyed_SetLoads (clock : nat → Time) (alerts : Alerts)
    (b : gmap string Alert) :
  buffer.keyed b → buffer.keyed (buffer.SetLoads clock alerts b).
Proof.
  unfold buffer.SetLoads. generalize 0%nat. revert b.
  induction alerts as [|a rest IH]; intros b i Hb; simpl; [done|].
  apply IH. by apply keyed_SetLoads_body.
Qed.

(** ** Witnesses of the two sweeps *)

Lemma sync_resolves_unreported_firing_witness :
  buffer.keyed samples.twoFiring
  ∧ (∃ a', (buffer.sync (Some [samples.f0]) (λ _, (samples.t2, samples.t2))
              samples.twoFiring).1 !! Key samples.f1 = Some a'
           ∧ Status a' = Resolved ∧ EndsAt a' = samples.t2
           ∧ Loaded a' = false)
  ∧ (buffer.sync (Some [samples.f0]) (λ _, (samples.t2, samples.t2))
       samples.twoFiring).1 !! Key samples.f0 = Some samples.f0.
Proof.
  assert (Hk : buffer.keyed samples.twoFiring).
  { unfold samples.twoFiring.
    apply keyed_insert; [reflexivity|].
    apply keyed_insert; [reflexivity|]. apply keyed_empty. }
  split; [exact Hk|]. split.
  - assert (Hb : samples.twoFiring !! Key samples.f1 = Some samples.f1)
      by (vm_compute; reflexivity).
    pose proof (sync_resolves_unreported_firing [samples.f0]
                  (λ _, (samples.t2, samples.t2)) samples.twoFiring
                  (Key samples.f1) samples.f1 Hk Hb) as H.
    destruct H as [_ H]. destruct H as [_ H]. destruct H as [H _].
    destruct H as (a' & Ha' & Hs & He & Hl & _).
    + reflexivity.
    + intros Hin. apply firingSet_spec in Hin as (x & Hx & Hkey).
      apply list_elem_of_singleton in Hx. subst x.
      vm_compute in Hkey. discriminate.
    + exists a'. split; [exact Ha'|]. split; [exact Hs|].
      split; [exact He|exact Hl].
  - assert (Hb : samples.twoFiring !! Key samples.f0 = Some samples.f0)
      by (vm_compute; reflexivity).
    pose proof (sync_resolves_unreported_firing [samples.f0]
                  (λ _, (samples.t2, samples.t2)) samples.twoFiring
                  (Key samples.f0) samples.f0 Hk Hb) as H.
    destruct H as [_ H]. destruct H as [_ H]. destruct H as [_ H].
    destruct H as [H _].
    apply H. apply firingSet_spec. exists samples.f0.
    split; [apply list_elem_of_here|reflexivity].
Defined.

(** A persisted, resolved record tested exactly one lifetime after it was
    loaded. *)
Lemma gc_removes_exactly_expired_witness :
  samples.saved !! Key samples.a0 = Some samples.a0_saved
  ∧ Since (mkTime (unixNano samples.t1 + 10 * Minute) "UTC")
      (LoadedAt samples.a0_saved) = 10 * Minute
  ∧ buffer.gc (λ _, mkTime (unixNano samples.t1 + 10 * Minute) "UTC")
      (10 * Minute) samples.saved !! Key samples.a0
    = Some samples.a0_saved.
Proof.
  split; [vm_compute; reflexivity|]. split; [vm_compute; reflexivity|].
  destruct (gc_removes_exactly_expired
              (λ _, mkTime (unixNano samples.t1 + 10 * Minute) "UTC")
              (10 * Minute) samples.saved (Key samples.a0) samples.a0_saved)
    as (_ & _ & H & _); [vm_compute; reflexivity|].
  apply H. vm_compute. reflexivity.
Defined.

(** One nanosecond later the same record is removed. *)
Example gc_one_tick_past :
  buffer.gc (λ _, mkTime (unixNano samples.t1 + 10 * Minute + 1) "UTC")
    (10 * Minute) samples.saved = ∅.
Proof. vm_compute. reflexivity. Qed.

(** ** SetLoads *)

(** The guard of [SetLoads] is presence of the key and [Equal]: the record
    at the key is marked exactly when both hold, and nothing else changes. *)
Lemma SetLoads_body_spec (now : Time) (b : gmap string Alert) (a : Alert) :
  (∀ source, b !! Key a = Some source → Equal source a = true →
     buffer.SetLoads_body now b a
     = <[Key a := buffer.markLoaded now source]> b)
  ∧ (∀ source, b !! Key a = Some source → Equal source a = false →
     buffer.SetLoads_body now b a = b)
  ∧ (b !! Key a = None → buffer.SetLoads_body now b a = b).
Proof.
  unfold buffer.SetLoads_body. repeat split.
  - intros source -> ->. done.
  - intros source -> ->. done.
  - intros ->. done.
Qed.

Lemma SetLoads_nil (clock : nat → Time) (b : gmap string Alert) :
  buffer.SetLoads clock [] b = b.
Proof. reflexivity. Qed.

(** C8, on the code.  The stored record is not persisted and carries a newer
    annotation value than the record handed to [SetLoads], which has the
    same key.  The two contents differ, but [Equal] sees the same number of
    annotations and accepts: the stored record is marked [Loaded] although
    its content was never saved. *)
Theorem SetLoads_marks_changed_annotation :
  Key samples.a0 = Key samples.a0_changed
  ∧ Loaded samples.a0_changed = false
  ∧ ¬ sameContent samples.a0_changed samples.a0
  ∧ Equal samples.a0_changed samples.a0 = true
  ∧ buffer.SetLoads (λ _, samples.t2) [samples.a0]
      {[ Key samples.a0_changed := samples.a0_changed ]}
    = {[ Key samples.a0_changed :=
           buffer.markLoaded samples.t2 samples.a0_changed ]}
  ∧ Loaded (buffer.markLoaded samples.t2 samples.a0_changed) = true.
Proof.
  split; [reflexivity|]. split; [reflexivity|].
  split.
  { intros (_ & _ & _ & _ & _ & H & _).
    assert (Hl : Annotations samples.a0_changed !! "summary"
                 = Annotations samples.a0 !! "summary") by (by rewrite H).
    vm_compute in Hl. discriminate. }
  split; [vm_compute; reflexivity|].
  split; [vm_compute; reflexivity|reflexivity].
Qed.

(** ** The batch save *)

Section batch_save.
Variable save : Alert → bool.
Variable opts : storage.Options.

(** A state in which nobody sends on [intermediate] and every worker
    waits to receive from it allows no move. *)
Lemma moves_all_receiving (st : storage.SaveState) :
  storage.senders st = [] → storage.closed st = false →
  Forall (λ w, w = storage.Receiving) (storage.workers st) →
  storage.moves save st = [].
Proof.
  intros Hs Hc Hw. unfold storage.moves.
  induction (seq 0 (length (storage.workers st))) as [|i l IH];
    simpl; [done|].
  rewrite IH, app_nil_r. unfold storage.worker_moves.
  destruct (storage.workers st !! i) as [w|] eqn:Hi; [|done].
  rewrite Forall_forall in Hw.
  rewrite (Hw w) by (by eapply list_elem_of_lookup_2).
  by rewrite Hs, Hc.
Qed.

Lemma Save_init_moves (alerts : Alerts) :
  storage.moves save (storage.Save_init opts alerts) = [].
Proof.
  apply moves_all_receiving; try done. simpl.
  apply Forall_forall. intros w Hw.
  by apply elem_of_replicate in Hw as [-> _].
Qed.

(** No run leaves the initial state. *)
Lemma Save_init_runs (alerts : Alerts) (st : storage.SaveState) :
  rtc (storage.step save) (storage.Save_init opts alerts) st →
  st = storage.Save_init opts alerts.
Proof.
  intros H. apply rtc_inv in H as [H|(st' & Hstep & _)]; [done|].
  unfold storage.step in Hstep. rewrite Save_init_moves in Hstep.
  by apply elem_of_nil in Hstep.
Qed.

(** On the empty batch the collecting loop has nothing to wait for. *)
Lemma Save_returns_nil (l : Alerts) :
  storage.Save_returns save opts [] l ↔ l = [].
Proof.
  split.
  - intros (st & Hrun & _ & Hl). apply Save_init_runs in Hrun.
    by subst.
  - intros ->. by exists (storage.Save_init opts []).
Qed.

Lemma Save_never_returns (a : Alert) (rest l : Alerts) :
  ¬ storage.Save_returns save opts (a :: rest) l.
Proof.
  intros (st & Hrun & Hrem & _). apply Save_init_runs in Hrun.
  by subst.
Qed.
End batch_save.

(** C3, on the code.  [Save] starts its workers but has no statement that
    sends a record of the batch on [intermediate], so for a batch that is
    not empty every goroutine waits on a channel: the initial state allows
    no move while the collecting loop still expects one outcome per record.
    The call never returns, whatever the outcome of the single saves, the
    number of workers and the scheduling. *)
Theorem Save_blocks_on_nonempty_batch
    (save : Alert → bool) (opts : storage.Options)
    (a : Alert) (rest : Alerts) (fuel : nat) :
  storage.moves save (storage.Save_init opts (a :: rest)) = []
  ∧ storage.remaining (storage.Save_init opts (a :: rest))
    = S (length rest)
  ∧ storage.Save fuel save opts (a :: rest) = storage.Blocked
  ∧ ∀ l, ¬ storage.Save_returns save opts (a :: rest) l.
Proof.
  split; [apply Save_init_moves|]. split; [done|]. split.
  - unfold storage.Save.
    destruct fuel; simpl; by rewrite Save_init_moves.
  - intros l. apply Save_never_returns.
Qed.

(** The batch of five of the specification, with four workers and saves that
    all succeed. *)
Example Save_batch_of_five :
  storage.Save 100 (λ _, true) (storage.mkOptions (5 * Second) 4)
    [samples.a0; samples.a0_changed; samples.f0; samples.f0_later; samples.f1]
  = storage.Blocked.
Proof. vm_compute. reflexivity. Qed.

(** The same machine in a state in which three records are being sent on
    [intermediate]: the workers save them, the save of the firing record
    fails, and the collecting loop returns the two others. *)
Example Save_run_when_fed :
  storage.Save_run 100 (λ a, bool_decide (Status a = Resolved))
    {| storage.workers := [storage.Receiving; storage.Receiving];
       storage.senders := [samples.a0; samples.f0; samples.a0_changed];
       storage.closed := false;
       storage.remaining := 3;
       storage.successAlerts := [];
       storage.successCount := 0;
       storage.failedCount := 0 |}
  = storage.Returns [samples.a0; samples.a0_changed].
Proof. vm_compute. reflexivity. Qed.

(** ** The buffer as the components drive it *)

Lemma noNewLoaded_refl (b : gmap string Alert) : noNewLoaded b b.
Proof. intros key a H HL. by exists a. Qed.

Lemma noNewLoaded_trans (b1 b2 b3 : gmap string Alert) :
  noNewLoaded b1 b2 → noNewLoaded b2 b3 → noNewLoaded b1 b3.
Proof.
  intros H12 H23 key a3 H3 HL.
  destruct (H23 _ _ H3 HL) as (a2 & H2 & HL2). by eapply H12.
Qed.

Lemma noNewLoaded_unloaded (b b' : gmap string Alert) :
  noNewLoaded b b' → unloaded b → unloaded b'.
Proof.
  intros Hn Hu key a' H. destruct (Loaded a') eqn:HL; [|done].
  destruct (Hn _ _ H HL) as (a & Ha & HLa).
  rewrite (Hu _ _ Ha) in HLa. discriminate.
Qed.

Lemma Update_body_noNewLoaded (b b' : gmap string Alert) (a : Alert) :
  Loaded a = false → buffer.Update_body b a = Some b' → noNewLoaded b b'.
Proof.
  intros Ha. unfold buffer.Update_body.
  destruct (b !! Key a) as [stored|] eqn:Hs; [|done].
  destruct (Equal a stored); intros [= <-] key a' H HL;
    apply lookup_insert_Some in H as [[<- <-]|[_ H]];
    try (by exists a').
  - by exists stored.
  - rewrite Ha in HL. discriminate.
Qed.

Lemma Update_loop_noNewLoaded (alerts : Alerts) (b : gmap string Alert) :
  Forall (λ a, Loaded a = false) alerts →
  noNewLoaded b (buffer.Update_loop b alerts).1.
Proof.
  intros Hall. revert b.
  induction Hall as [|a rest Ha _ IH]; intros b; simpl.
  - apply noNewLoaded_refl.
  - destruct (buffer.Update_body b a) as [b'|] eqn:Hbody.
    + eapply noNewLoaded_trans; [|apply IH].
      by eapply Update_body_noNewLoaded.
    + apply noNewLoaded_refl.
Qed.

Lemma decoded_unloaded (payload : list (Time * Alert)) :
  Forall (λ a, Loaded a = false) ((λ p, UnmarshalJSON p.1 p.2) <$> payload).
Proof. apply Forall_fmap, Forall_forall. by intros p _. Qed.

Lemma sync_noNewLoaded fetched (clock : string → Time * Time)
    (b : gmap string Alert) :
  noNewLoaded b (buffer.sync fetched clock b).1.
Proof.
  destruct fetched as [alerts|]; [|apply noNewLoaded_refl].
  intros key a'. rewrite sync_lookup.
  destruct (b !! key) as [a|] eqn:Ha; [|done]. intros [= <-].
  unfold buffer.sync_entry. destruct (_ && _); [done|].
  intros HL. by exists a.
Qed.

Lemma gc_noNewLoaded (clock : string → Time) (lifetime : Duration)
    (b : gmap string Alert) :
  noNewLoaded b (buffer.gc clock lifetime b).
Proof.
  intros key a' H HL. apply map_lookup_filter_Some in H as [H _].
  by exists a'.
Qed.

(** A pass of the storage engine pulls nothing, saves nothing and marks
    nothing. *)
Lemma Run_cycle_idle (save : Alert → bool) (opts : storage.Options)
    (clock : nat → Time) (b b' : gmap string Alert) :
  wiring.Run_cycle save opts clock b b' →
  storage.Save_returns save opts (buffer.GetUnloads b) []
  ∧ b' = buffer.SetLoads clock [] b ∧ b' = b.
Proof.
  intros (successes & Hsave & ->).
  apply Save_returns_nil in Hsave as ->.
  split; [by apply Save_returns_nil|]. by split.
Qed.

Lemma step_noNewLoaded act (b b' : gmap string Alert) :
  wiring.step act b b' → noNewLoaded b b'.
Proof.
  destruct 1 as [acquired payload b|fetched clock b|clock lifetime b
                 |save opts clock b b' Hcycle].
  - destruct acquired; [|apply noNewLoaded_refl].
    apply Update_loop_noNewLoaded, decoded_unloaded.
  - apply sync_noNewLoaded.
  - apply gc_noNewLoaded.
  - apply Run_cycle_idle in Hcycle as (_ & _ & ->). apply noNewLoaded_refl.
Qed.

Lemma reachable_noNewLoaded (b0 b : gmap string Alert) :
  wiring.reachable b0 b → noNewLoaded b0 b.
Proof.
  induction 1 as [b|b1 b2 b3 [act Hstep] _ IH].
  - apply noNewLoaded_refl.
  - eapply noNewLoaded_trans; [|exact IH]. by eapply step_noNewLoaded.
Qed.

Lemma unloaded_not_expired (b : gmap string Alert) (now : Time)
    (t : Duration) (key : string) (a : Alert) :
  unloaded b → b !! key = Some a → IsExpired now t a = false.
Proof.
  intros Hu Ha. unfold IsExpired. rewrite (Hu _ _ Ha).
  by rewrite andb_false_r.
Qed.

Lemma unloaded_gc (b : gmap string Alert) (clock : string → Time)
    (lifetime : Duration) :
  unloaded b → buffer.gc clock lifetime b = b.
Proof.
  intros Hu. apply map_filter_id. intros key a Ha. simpl.
  by eapply unloaded_not_expired.
Qed.

(** C9.  Start from a buffer in which no record is [Loaded] and let webhook
    requests, reconciliation sweeps, eviction sweeps and passes of the
    storage engine run in any order.  In every buffer that is reached no
    record is [Loaded]; [GetUnloads] returns the empty slice, so a pass of
    the engine saves the empty batch, gets the empty result, marks nothing
    and leaves the buffer as it is; the other three activities never turn a
    [Loaded] flag to true; no record is expired, at any clock reading and
    for any lifetime; and an eviction sweep removes nothing. *)
Theorem wired_buffer_never_Loaded (b0 b : gmap string Alert) :
  unloaded b0 →
  wiring.reachable b0 b →
  unloaded b
  ∧ buffer.GetUnloads b = []
  ∧ (∀ save opts clock b',
       wiring.Run_cycle save opts clock b b' →
       storage.Save_returns save opts (buffer.GetUnloads b) []
       ∧ b' = buffer.SetLoads clock [] b ∧ b' = b)
  ∧ (∀ act b', wiring.step act b b' → noNewLoaded b b')
  ∧ (∀ now t key a, b !! key = Some a → IsExpired now t a = false)
  ∧ (∀ clock lifetime, buffer.gc clock lifetime b = b).
Proof.
  intros Hu0 Hreach.
  assert (Hu : unloaded b).
  { eapply noNewLoaded_unloaded; [|exact Hu0].
    by apply reachable_noNewLoaded. }
  split; [exact Hu|]. split; [done|].
  split; [intros save opts clock b'; apply Run_cycle_idle|].
  split; [intros act b'; apply step_noNewLoaded|].
  split.
  - intros now t key a. by apply unloaded_not_expired.
  - intros clock lifetime. by apply unloaded_gc.
Qed.

Lemma wired_buffer_never_Loaded_witness :
  unloaded samples.unsaved
  ∧ wiring.reachable samples.unsaved samples.wiredRun
  ∧ unloaded samples.wiredRun
  ∧ (∀ clock lifetime, buffer.gc clock lifetime samples.wiredRun = samples.wiredRun).
Proof.
  assert (Hu : unloaded samples.unsaved).
  { intros key a H. unfold samples.unsaved in H.
    apply lookup_singleton_Some in H as [_ <-]. reflexivity. }
  assert (Hr : wiring.reachable samples.unsaved samples.wiredRun).
  { unfold wiring.reachable, samples.wiredRun.
    eapply rtc_l; [exists wiring.Webhook; apply wiring.step_webhook|].
    eapply rtc_l; [exists wiring.Sync; apply wiring.step_sync|].
    apply rtc_refl. }
  pose proof (wired_buffer_never_Loaded samples.unsaved samples.wiredRun Hu Hr) as H.
  destruct H as [H1 H]. destruct H as [_ H]. destruct H as [_ H].
  destruct H as [_ H]. destruct H as [_ H].
  split; [exact Hu|]. split; [exact Hr|]. split; [exact H1|exact H].
Defined.

(** ** Keys *)

Lemma Key_eq_iff (a b : Alert) :
  Fingerprint a = Fingerprint b →
  Key a = Key b ↔ UnixMilli (StartsAt a) = UnixMilli (StartsAt b).
Proof.
  intros Hf. unfold Key. rewrite Hf. split.
  - intros H. apply (inj (String.app _)) in H.
    apply (inj (String.app _)) in H. by apply (inj pretty) in H.
  - by intros ->.
Qed.

(** An iteration of [Update] reads and writes the entry of the key of the
    incoming record only. *)
Lemma Update_body_other_key (b b' : gmap string Alert) (a : Alert)
    (key : string) :
  buffer.Update_body b a = Some b' → key ≠ Key a → b' !! key = b !! key.
Proof.
  unfold buffer.Update_body.
  destruct (b !! Key a) as [stored|]; [|done].
  destruct (Equal a stored); intros [= <-] Hne; by apply lookup_insert_ne.
Qed.

(** C10, as the code has it.  Two records with the same fingerprint whose
    starts fall into different milliseconds ([UnixMilli] differs) have
    different keys.  So they are two entries of a map, and an iteration of
    [Update] for one of them leaves the entry of the other as it is. *)
Theorem Key_distinct_when_millis_differ (a b : Alert) :
  Fingerprint a = Fingerprint b →
  UnixMilli (StartsAt a) ≠ UnixMilli (StartsAt b) →
  Key a ≠ Key b
  ∧ (∀ m : gmap string Alert,
       <[Key b := b]> (<[Key a := a]> m) !! Key a = Some a
       ∧ <[Key b := b]> (<[Key a := a]> m) !! Key b = Some b)
  ∧ (∀ m m' : gmap string Alert,
       buffer.Update_body m b = Some m' → m' !! Key a = m !! Key a)
  ∧ (∀ m m' : gmap string Alert,
       buffer.Update_body m a = Some m' → m' !! Key b = m !! Key b).
Proof.
  intros Hf Hm.
  assert (Hk : Key a ≠ Key b) by (by rewrite Key_eq_iff).
  split; [exact Hk|]. split; [|split].
  - intros m. split.
    + rewrite lookup_insert_ne by done. apply lookup_insert_eq.
    + apply lookup_insert_eq.
  - intros m m' H. by eapply Update_body_other_key.
  - intros m m' H. by eapply Update_body_other_key.
Qed.

Lemma Key_distinct_when_millis_differ_witness :
  Fingerprint samples.f0 = Fingerprint samples.f1
  ∧ UnixMilli (StartsAt samples.f0) ≠ UnixMilli (StartsAt samples.f1)
  ∧ Key samples.f0 ≠ Key samples.f1.
Proof.
  assert (Hm : UnixMilli (StartsAt samples.f0)
               ≠ UnixMilli (StartsAt samples.f1)).
  { intros H. vm_compute in H. discriminate. }
  split; [reflexivity|]. split; [exact Hm|].
  exact (proj1 (Key_distinct_when_millis_differ samples.f0 samples.f1
                  eq_refl Hm)).
Defined.

(** C10, as the claim has it, fails: two records with the same fingerprint
    whose starts are one nanosecond apart have different start timestamps
    and the same key, and [Update] puts the second in the place of the
    first. *)
Lemma Key_collides_within_a_millisecond :
  Fingerprint samples.f0 = Fingerprint samples.f0_later
  ∧ StartsAt samples.f0 ≠ StartsAt samples.f0_later
  ∧ Key samples.f0 = Key samples.f0_later
  ∧ buffer.Update true {[ Key samples.f0 := samples.f0 ]} [samples.f0_later]
    = ({[ Key samples.f0 := samples.f0_later ]}, buffer.Done).
Proof.
  split; [reflexivity|]. split.
  { intros H. vm_compute in H. discriminate. }
  split; vm_compute; reflexivity.
Qed.

(** * Further properties *)

(** ** Equal as a relation *)

Lemma Equal_refl (a : Alert) : Equal a a = true.
Proof. apply Equal_spec. repeat split; done. Qed.

(** [Equal] is reflexive and transitive. *)
Theorem Equal_preorder (a b c : Alert) :
  Equal a a = true
  ∧ (Equal a b = true → Equal b c = true → Equal a c = true).
Proof.
  split; [apply Equal_refl|].
  rewrite !Equal_spec.
  intros (-> & -> & -> & -> & -> & -> & Hab) (-> & -> & -> & -> & -> & -> & Hbc).
  repeat split; try done. by trans (Labels b).
Qed.

(** What [==] compares in two times. *)
Lemma Time_eq (t u : Time) :
  t = u ↔ unixNano t = unixNano u ∧ location t = location u
          ∧ monotonic t = monotonic u.
Proof.
  split; [by intros ->|].
  destruct t, u. simpl. by intros (-> & -> & ->).
Qed.

(** Two records are [Equal] in both directions exactly when they agree on
    fingerprint, status, generator URL and labels, have the same number of
    annotations, and their starts and their ends are [==]: the same
    instant, the same Location pointer and the same monotonic reading.  The values of the annotations, [Loaded] and [LoadedAt] are
    not looked at. *)
Theorem Equal_both_ways (a b : Alert) :
  Equal a b = true ∧ Equal b a = true
  ↔ Fingerprint a = Fingerprint b ∧ Status a = Status b
    ∧ StartsAt a = StartsAt b ∧ EndsAt a = EndsAt b
    ∧ GeneratorURL a = GeneratorURL b
    ∧ size (Annotations a) = size (Annotations b)
    ∧ Labels a = Labels b.
Proof.
  rewrite !Equal_spec. split.
  - intros [(? & ? & ? & ? & ? & ? & Hab) (_ & _ & _ & _ & _ & _ & Hba)].
    repeat split; try done. by apply (anti_symm (⊆)).
  - intros (Hf & Hs & Hst & He & Hg & Hn & Hl).
    rewrite Hf, Hs, Hst, He, Hg, Hn, Hl. repeat split; done.
Qed.

(** [Equal] is not symmetric: a record is [Equal] to the record that carries
    one label more, and not the other way round. *)
Theorem Equal_one_label_more (a : Alert) (k v : string) :
  Labels a !! k = None →
  Equal a (setLabels (<[k := v]> (Labels a)) a) = true
  ∧ Equal (setLabels (<[k := v]> (Labels a)) a) a = false.
Proof.
  intros Hk. split.
  - apply Equal_spec. repeat split; try done. simpl.
    by apply insert_subseteq.
  - apply not_true_iff_false. rewrite Equal_spec.
    intros (_ & _ & _ & _ & _ & _ & Hl). simpl in Hl.
    rewrite map_subseteq_spec in Hl.
    specialize (Hl k v (lookup_insert_eq _ _ _)). congruence.
Qed.

Lemma Equal_one_label_more_witness :
  Labels samples.f0 !! "severity" = None
  ∧ Equal samples.f0
      (setLabels (<["severity" := "INFO"]> (Labels samples.f0)) samples.f0)
    = true
  ∧ Equal (setLabels (<["severity" := "INFO"]> (Labels samples.f0)) samples.f0)
      samples.f0 = false.
Proof.
  assert (H : Labels samples.f0 !! "severity" = None)
    by (vm_compute; reflexivity).
  split; [exact H|].
  exact (Equal_one_label_more samples.f0 "severity" "INFO" H).
Defined.

(** ** Keys name one fingerprint and one millisecond *)

Lemma append_nil_l (s : string) : "" +:+ s = s.
Proof. reflexivity. Qed.

Lemma append_cons (c : ascii) (s d : string) :
  String c s +:+ d = String c (s +:+ d).
Proof. reflexivity. Qed.

Lemma colonFree_app_colon (s d : string) :
  colonFree (s +:+ String ":" d) = false.
Proof.
  induction s as [|c s IH]; rewrite ?append_nil_l, ?append_cons; simpl;
    [done|].
  by rewrite IH, andb_false_r.
Qed.

Lemma pretty_N_go_colonFree (x : N) (s : string) :
  colonFree s = true → colonFree (pretty_N_go x s) = true.
Proof.
  revert s. induction (N.lt_wf_0 x) as [x _ IH]; intros s Hs.
  assert (x = 0 ∨ 0 < x)%N as [->|Hx] by lia.
  - by rewrite pretty_N_go_0.
  - rewrite pretty_N_go_step by done. apply IH.
    { by apply N.div_lt. }
    simpl. rewrite Hs. unfold pretty_N_char. by repeat case_match.
Qed.

Lemma pretty_N_colonFree (x : N) : colonFree (pretty x) = true.
Proof.
  unfold pretty, pretty_N. case_decide; [done|].
  by apply pretty_N_go_colonFree.
Qed.

Lemma pretty_Z_colonFree (z : Z) : colonFree (pretty z) = true.
Proof.
  unfold pretty, pretty_Z. destruct z as [|p|p]; [done|..].
  - apply pretty_N_colonFree.
  - rewrite append_cons, append_nil_l. simpl. apply pretty_N_colonFree.
Qed.

(** A string splits in one way only at a colon that is followed by no
    further colon. *)
Lemma split_at_last_colon (s1 s2 d1 d2 : string) :
  colonFree d1 = true → colonFree d2 = true →
  s1 +:+ String ":" d1 = s2 +:+ String ":" d2 → s1 = s2 ∧ d1 = d2.
Proof.
  intros H1 H2. revert s2.
  induction s1 as [|c s1 IH]; intros [|c' s2] H;
    rewrite ?append_nil_l, ?append_cons in H.
  - by injection H.
  - injection H as <- ->. by rewrite colonFree_app_colon in H1.
  - injection H as -> <-. by rewrite colonFree_app_colon in H2.
  - injection H as -> H. by destruct (IH _ H) as [-> ->].
Qed.

Lemma Key_parts (f f' : string) (m m' : Z) :
  f +:+ ":" +:+ pretty m = f' +:+ ":" +:+ pretty m' ↔ f = f' ∧ m = m'.
Proof.
  rewrite !append_cons, !append_nil_l. split.
  - intros H.
    apply split_at_last_colon in H as [Hf Hp];
      [|apply pretty_Z_colonFree..].
    split; [done|]. by apply (inj pretty) in Hp.
  - by intros [-> ->].
Qed.

(** [Key] is injective on the pair of the fingerprint and the millisecond of
    the start, whatever characters the fingerprint holds: two records have
    the same key exactly when they have the same fingerprint and their
    starts have the same [UnixMilli]. *)
Theorem Key_eq_fingerprint_and_millis (a b : Alert) :
  Key a = Key b
  ↔ Fingerprint a = Fingerprint b
    ∧ UnixMilli (StartsAt a) = UnixMilli (StartsAt b).
Proof. unfold Key. apply Key_parts. Qed.

(** ** Expiry over time *)




(** ** Update on whole batches *)

Lemma Update_body_dom (b b' : gmap string Alert) (a : Alert) :
  buffer.Update_body b a = Some b' → dom b' = dom b.
Proof.
  unfold buffer.Update_body.
  destruct (b !! Key a) as [stored|] eqn:Hs; [|done].
  destruct (Equal a stored); intros [= <-];
    apply dom_insert_lookup_L; by eexists.
Qed.

Lemma Update_body_None (b : gmap string Alert) (a : Alert) :
  buffer.Update_body b a = None ↔ Key a ∉ dom b.
Proof.
  rewrite not_elem_of_dom. unfold buffer.Update_body.
  destruct (b !! Key a) as [stored|]; [|done].
  by destruct (Equal a stored).
Qed.

Lemma Update_loop_dom (alerts : Alerts) (b : gmap string Alert) :
  dom (buffer.Update_loop b alerts).1 = dom b.
Proof.
  revert b. induction alerts as [|a rest IH]; intros b; simpl; [done|].
  destruct (buffer.Update_body b a) as [b'|] eqn:Hbody; [|done].
  rewrite IH. by eapply Update_body_dom.
Qed.

(** [Update] never adds and never removes a key, whatever the batch and
    however the call ends; a buffer that is empty stays empty. *)
Theorem Update_keeps_the_keys
    (acquired : bool) (b : gmap string Alert) (alerts : Alerts) :
  dom (buffer.Update acquired b alerts).1 = dom b
  ∧ (buffer.Update acquired ∅ alerts).1 = ∅.
Proof.
  assert (H : ∀ m, dom (buffer.Update acquired m alerts).1 = dom m).
  { intros m. unfold buffer.Update. destruct acquired; [|done].
    apply Update_loop_dom. }
  split; [apply H|]. apply dom_empty_iff_L. by rewrite H, dom_empty_L.
Qed.

Lemma Update_loop_result (alerts : Alerts) (b : gmap string Alert) :
  (buffer.Update_loop b alerts).2
  = if bool_decide (Forall (λ a, Key a ∈ dom b) alerts)
    then buffer.Done else buffer.NilDereference.
Proof.
  revert b. induction alerts as [|a rest IH]; intros b.
  - by rewrite bool_decide_eq_true_2.
  - change (buffer.Update_loop b (a :: rest))
      with (match buffer.Update_body b a with
            | None => (b, buffer.NilDereference)
            | Some b' => buffer.Update_loop b' rest
            end).
    destruct (buffer.Update_body b a) as [b'|] eqn:Hbody.
    + rewrite IH, (Update_body_dom _ _ _ Hbody).
      assert (Key a ∈ dom b).
      { destruct (decide (Key a ∈ dom b)) as [|Hn]; [done|].
        apply Update_body_None in Hn. congruence. }
      rewrite (bool_decide_ext (Forall (λ x, Key x ∈ dom b) (a :: rest))
                 (Forall (λ x, Key x ∈ dom b) rest)); [done|].
      rewrite Forall_cons. tauto.
    + apply Update_body_None in Hbody.
      rewrite bool_decide_eq_false_2; [done|].
      rewrite Forall_cons. tauto.
Qed.

(** How a call of [Update] ends is decided by the lock and the keys alone:
    without the lock it returns the error and the buffer is untouched; with
    the lock it returns normally when the key of every record of the batch
    is already stored, and it panics otherwise. *)
Theorem Update_ends
    (acquired : bool) (b : gmap string Alert) (alerts : Alerts) :
  (buffer.Update acquired b alerts).2
  = (if acquired
     then if bool_decide (Forall (λ a, Key a ∈ dom b) alerts)
          then buffer.Done else buffer.NilDereference
     else buffer.LockFailed)
  ∧ buffer.Update false b alerts = (b, buffer.LockFailed).
Proof.
  split; [|done]. unfold buffer.Update. destruct acquired; [|done].
  apply Update_loop_result.
Qed.

Lemma Update_loop_app (pre post : Alerts) (b : gmap string Alert) :
  buffer.Update_loop b (pre ++ post)
  = match (buffer.Update_loop b pre).2 with
    | buffer.Done => buffer.Update_loop (buffer.Update_loop b pre).1 post
    | _ => buffer.Update_loop b pre
    end.
Proof.
  revert b. induction pre as [|a pre IH]; intros b; simpl; [done|].
  destruct (buffer.Update_body b a) as [b'|]; [apply IH|done].
Qed.

(** A batch is applied up to its first record with an unseen key: the
    records before it take effect, the panic leaves the buffer as they made
    it, and the records after it are not looked at. *)
Theorem Update_stops_at_first_unseen
    (b : gmap string Alert) (pre post : Alerts) (a : Alert) :
  Forall (λ x, Key x ∈ dom b) pre →
  Key a ∉ dom b →
  buffer.Update true b pre = ((buffer.Update true b pre).1, buffer.Done)
  ∧ buffer.Update true b (pre ++ a :: post)
    = ((buffer.Update true b pre).1, buffer.NilDereference).
Proof.
  intros Hpre Ha. simpl.
  assert (Hdone : (buffer.Update_loop b pre).2 = buffer.Done).
  { rewrite Update_loop_result. by rewrite bool_decide_eq_true_2. }
  split.
  - rewrite <- Hdone. by destruct (buffer.Update_loop b pre).
  - rewrite Update_loop_app, Hdone. simpl.
    rewrite (proj2 (Update_body_None _ a)); [done|].
    by rewrite Update_loop_dom.
Qed.

Lemma Update_stops_at_first_unseen_witness :
  Forall (λ x, Key x ∈ dom samples.saved) [samples.a0_changed]
  ∧ (Key samples.f0 ∉ dom samples.saved)
  ∧ buffer.Update true samples.saved
      ([samples.a0_changed] ++ samples.f0 :: [samples.a0])
    = ((buffer.Update true samples.saved [samples.a0_changed]).1,
       buffer.NilDereference).
Proof.
  assert (H1 : Forall (λ x, Key x ∈ dom samples.saved) [samples.a0_changed]).
  { apply Forall_singleton. apply elem_of_dom. exists samples.a0_saved.
    vm_compute. reflexivity. }
  assert (H2 : Key samples.f0 ∉ dom samples.saved).
  { apply not_elem_of_dom. vm_compute. reflexivity. }
  split; [exact H1|]. split; [exact H2|].
  exact (proj2 (Update_stops_at_first_unseen samples.saved
                  [samples.a0_changed] [samples.a0] samples.f0 H1 H2)).
Defined.

Lemma Update_body_twice (b b' : gmap string Alert) (a : Alert) :
  buffer.Update_body b a = Some b' → buffer.Update_body b' a = Some b'.
Proof.
  unfold buffer.Update_body.
  destruct (b !! Key a) as [stored|] eqn:Hs; [|done].
  destruct (Equal a stored) eqn:HE; intros [= <-];
    rewrite lookup_insert_eq.
  - change (Equal a (buffer.setLoadedAt (LoadedAt a) stored))
      with (Equal a stored). rewrite HE.
    by rewrite insert_insert_eq.
  - rewrite Equal_refl. rewrite insert_insert_eq. by destruct a.
Qed.

(** Handing the same record twice in a row to [Update] is the same as
    handing it once, for the buffer and for the way the call ends. *)
Theorem Update_same_record_twice
    (acquired : bool) (b : gmap string Alert) (a : Alert) :
  buffer.Update acquired b [a; a] = buffer.Update acquired b [a].
Proof.
  destruct acquired; [|done]. simpl.
  destruct (buffer.Update_body b a) as [b'|] eqn:Hbody; [|done].
  by rewrite (Update_body_twice _ _ _ Hbody).
Qed.

(** ** Records stay under their keys *)

(** Every operation of the buffer keeps each record under the key that
    [Key] gives it: [Update], [sync], [gc] and [SetLoads], with any
    arguments. *)
Theorem keyed_kept_by_every_operation (b : gmap string Alert) :
  buffer.keyed b →
  (∀ acquired alerts, buffer.keyed (buffer.Update acquired b alerts).1)
  ∧ (∀ fetched clock, buffer.keyed (buffer.sync fetched clock b).1)
  ∧ (∀ clock lifetime, buffer.keyed (buffer.gc clock lifetime b))
  ∧ (∀ clock alerts, buffer.keyed (buffer.SetLoads clock alerts b)).
Proof.
  intros Hb. repeat split.
  - intros [] alerts; [|done]. by apply keyed_Update_loop.
  - intros fetched clock. by apply keyed_sync.
  - intros clock lifetime. by apply keyed_gc.
  - intros clock alerts. by apply keyed_SetLoads.
Qed.

Lemma keyed_kept_by_every_operation_witness :
  buffer.keyed samples.twoFiring
  ∧ buffer.keyed
      (buffer.sync (Some [samples.f0]) (λ _, (samples.t2, samples.t2))
         samples.twoFiring).1.
Proof.
  assert (Hk : buffer.keyed samples.twoFiring).
  { unfold samples.twoFiring.
    apply keyed_insert; [reflexivity|].
    apply keyed_insert; [reflexivity|]. apply keyed_empty. }
  split; [exact Hk|].
  pose proof (keyed_kept_by_every_operation samples.twoFiring Hk) as H.
  destruct H as [_ H]. destruct H as [H _]. apply H.
Defined.

(** ** More on the reconciliation sweep *)

Lemma sync_entry_twice (set : gset string) (clock clock' : string → Time * Time)
    (key : string) (a : Alert) :
  buffer.sync_entry set clock' key (buffer.sync_entry set clock key a)
  = buffer.sync_entry set clock key a.
Proof.
  unfold buffer.sync_entry.
  destruct (bool_decide (key ∉ set)); simpl; [|done].
  destruct (bool_decide (Status a = Firing)) eqn:HF.
  - reflexivity.
  - simpl. by rewrite HF.
Qed.

(** A second sweep with the same answer of the controller changes nothing,
    whatever the clock reads. *)
Theorem sync_twice (alerts : Alerts) (clock clock' : string → Time * Time)
    (b : gmap string Alert) :
  (buffer.sync (Some alerts) clock'
     (buffer.sync (Some alerts) clock b).1).1
  = (buffer.sync (Some alerts) clock b).1.
Proof.
  apply map_eq. intros key. rewrite !sync_lookup.
  destruct (b !! key) as [a|]; [|done]. simpl.
  by rewrite sync_entry_twice.
Qed.

(** After a sweep that got an answer, every record that is still firing is
    one that the controller reported, and the sweep did not touch it. *)
Theorem sync_leaves_only_reported_firing
    (alerts : Alerts) (clock : string → Time * Time)
    (b : gmap string Alert) (key : string) (a' : Alert) :
  (buffer.sync (Some alerts) clock b).1 !! key = Some a' →
  Status a' = Firing →
  key ∈ buffer.firingSet alerts ∧ b !! key = Some a'.
Proof.
  rewrite sync_lookup. destruct (b !! key) as [a|]; [|done].
  intros [= <-]. unfold buffer.sync_entry.
  case_bool_decide as Hin; simpl.
  - case_bool_decide; simpl; [done|]. intros; congruence.
  - intros _. by split.
Qed.

Lemma sync_leaves_only_reported_firing_witness :
  (buffer.sync (Some [samples.f0]) (λ _, (samples.t2, samples.t2))
     samples.twoFiring).1 !! Key samples.f0 = Some samples.f0
  ∧ Key samples.f0 ∈ buffer.firingSet [samples.f0].
Proof.
  assert (H : (buffer.sync (Some [samples.f0]) (λ _, (samples.t2, samples.t2))
                 samples.twoFiring).1 !! Key samples.f0 = Some samples.f0)
    by (vm_compute; reflexivity).
  split; [exact H|].
  exact (proj1 (sync_leaves_only_reported_firing [samples.f0]
                  (λ _, (samples.t2, samples.t2)) samples.twoFiring
                  (Key samples.f0) samples.f0 H eq_refl)).
Defined.

(** When the controller answers with no alert at all, the sweep resolves
    every firing record: none is firing afterwards. *)
Theorem sync_empty_answer_resolves_all
    (clock : string → Time * Time) (b : gmap string Alert)
    (key : string) (a' : Alert) :
  (buffer.sync (Some []) clock b).1 !! key = Some a' →
  Status a' ≠ Firing.
Proof.
  rewrite sync_lookup. destruct (b !! key) as [a|]; [|done].
  intros [= <-]. unfold buffer.sync_entry, buffer.firingSet. simpl.
  rewrite (bool_decide_eq_true_2 (key ∉ ∅)) by apply not_elem_of_empty.
  simpl. case_bool_decide; [discriminate|done].
Qed.

Lemma sync_empty_answer_resolves_all_witness :
  (buffer.sync (Some []) (λ _, (samples.t2, samples.t2))
     samples.twoFiring).1 !! Key samples.f1
  = Some (SetResolved samples.t2 samples.t2 samples.f1)
  ∧ Status (SetResolved samples.t2 samples.t2 samples.f1) ≠ Firing.
Proof.
  assert (H : (buffer.sync (Some []) (λ _, (samples.t2, samples.t2))
                 samples.twoFiring).1 !! Key samples.f1
              = Some (SetResolved samples.t2 samples.t2 samples.f1))
    by (vm_compute; reflexivity).
  split; [exact H|].
  exact (sync_empty_answer_resolves_all (λ _, (samples.t2, samples.t2))
           samples.twoFiring (Key samples.f1) _ H).
Defined.

(** ** More on the eviction sweep *)

(** The eviction sweep only removes: what it leaves is part of the buffer;
    a longer lifetime leaves at least as much as a shorter one; and a second
    sweep at the same readings of the clock removes nothing more. *)
Theorem gc_only_removes
    (clock : string → Time) (t t' : Duration) (b : gmap string Alert) :
  t ≤ t' →
  buffer.gc clock t' b ⊆ b
  ∧ buffer.gc clock t b ⊆ buffer.gc clock t' b
  ∧ buffer.gc clock t (buffer.gc clock t b) = buffer.gc clock t b.
Proof.
  intros Ht. split; [apply map_filter_subseteq|]. split.
  - apply map_subseteq_spec. intros key a Ha.
    apply map_lookup_filter_Some in Ha as [Ha HE]. simpl in HE.
    apply map_lookup_filter_Some. split; [done|]. simpl.
    apply not_true_iff_false. apply not_true_iff_false in HE.
    intros H. apply HE. apply IsExpired_spec.
    apply IsExpired_spec in H as (? & ? & ?). repeat split; try done. lia.
  - apply map_filter_id. intros key a Ha.
    by apply map_lookup_filter_Some in Ha as [_ HE].
Qed.

Lemma gc_only_removes_witness :
  10 * Minute ≤ 20 * Minute
  ∧ buffer.gc (λ _, mkTime (unixNano samples.t1 + 15 * Minute) "UTC")
      (10 * Minute) samples.saved
    ⊆ buffer.gc (λ _, mkTime (unixNano samples.t1 + 15 * Minute) "UTC")
        (20 * Minute) samples.saved.
Proof.
  assert (H : 10 * Minute ≤ 20 * Minute) by (vm_compute; discriminate).
  split; [exact H|].
  pose proof (gc_only_removes
                (λ _, mkTime (unixNano samples.t1 + 15 * Minute) "UTC")
                (10 * Minute) (20 * Minute) samples.saved H) as G.
  destruct G as [_ G]. destruct G as [G _]. exact G.
Defined.

(** ** More on SetLoads *)

Lemma sameContent_trans (x y z : Alert) :
  sameContent x y → sameContent y z → sameContent x z.
Proof.
  unfold sameContent. intros (? & ? & ? & ? & ? & ? & ?) (? & ? & ? & ? & ? & ? & ?).
  repeat split; congruence.
Qed.

(** What [SetLoads] may do to a buffer: keep the keys, keep the content of
    every record, and never take a [Loaded] flag back. *)
Lemma SetLoads_body_marks (now : Time) (b : gmap string Alert) (a : Alert) :
  dom (buffer.SetLoads_body now b a) = dom b
  ∧ ∀ key x', buffer.SetLoads_body now b a !! key = Some x' →
      ∃ x, b !! key = Some x ∧ sameContent x' x
           ∧ (Loaded x = true → Loaded x' = true).
Proof.
  unfold buffer.SetLoads_body.
  destruct (b !! Key a) as [source|] eqn:Hs;
    [destruct (Equal source a)|]; try (split; [done|]).
  - split; [apply dom_insert_lookup_L; by eexists|].
    intros key x' H. apply lookup_insert_Some in H as [[<- <-]|[_ H]].
    + exists source. by repeat split.
    + exists x'. by repeat split.
  - intros key x' H. exists x'. by repeat split.
  - intros key x' H. exists x'. by repeat split.
Qed.

(** [SetLoads] writes the two persistence fields only: it neither adds nor
    removes a key, every record keeps its content, and a record that was
    [Loaded] stays [Loaded]. *)
Theorem SetLoads_writes_persistence_fields_only
    (clock : nat → Time) (alerts : Alerts) (b : gmap string Alert) :
  dom (buffer.SetLoads clock alerts b) = dom b
  ∧ ∀ key x', buffer.SetLoads clock alerts b !! key = Some x' →
      ∃ x, b !! key = Some x ∧ sameContent x' x
           ∧ (Loaded x = true → Loaded x' = true).
Proof.
  unfold buffer.SetLoads. generalize 0%nat. revert b.
  induction alerts as [|a rest IH]; intros b i; simpl.
  - split; [done|]. intros key x' H. exists x'. by repeat split.
  - destruct (IH (buffer.SetLoads_body (clock i) b a) (S i)) as [Hd Hl].
    destruct (SetLoads_body_marks (clock i) b a) as [Hd1 Hl1].
    split; [by rewrite Hd|].
    intros key x'' H. destruct (Hl _ _ H) as (x' & Hx' & Hc' & HL').
    destruct (Hl1 _ _ Hx') as (x & Hx & Hc & HL).
    exists x. split; [done|]. split; [|by auto].
    by eapply sameContent_trans.
Qed.

(** Records whose keys the buffer does not hold are ignored by [SetLoads]:
    a batch of such records leaves the buffer as it is. *)
Theorem SetLoads_ignores_unknown_keys
    (clock : nat → Time) (alerts : Alerts) (b : gmap string Alert) :
  Forall (λ a, Key a ∉ dom b) alerts →
  buffer.SetLoads clock alerts b = b.
Proof.
  intros H. unfold buffer.SetLoads. generalize 0%nat.
  induction H as [|a rest Ha _ IH]; intros i; simpl; [done|].
  unfold buffer.SetLoads_body at 1.
  apply not_elem_of_dom in Ha. rewrite Ha. apply IH.
Qed.

Lemma SetLoads_ignores_unknown_keys_witness :
  Forall (λ a, Key a ∉ dom samples.unsaved) [samples.f0; samples.f1]
  ∧ buffer.SetLoads (λ _, samples.t2) [samples.f0; samples.f1] samples.unsaved
    = samples.unsaved.
Proof.
  assert (H : Forall (λ a, Key a ∉ dom samples.unsaved)
                [samples.f0; samples.f1]).
  { apply Forall_cons. split; [apply not_elem_of_dom; vm_compute; reflexivity|].
    apply Forall_cons. split; [apply not_elem_of_dom; vm_compute; reflexivity|].
    constructor. }
  split; [exact H|].
  exact (SetLoads_ignores_unknown_keys (λ _, samples.t2)
           [samples.f0; samples.f1] samples.unsaved H).
Defined.

(** ** The sweep against SetLoads and Update *)

Lemma sync_resolved_lookup (alerts : Alerts) (clock : string → Time * Time)
    (b : gmap string Alert) (key : string) (stored : Alert) :
  b !! key = Some stored → Status stored = Firing →
  key ∉ buffer.firingSet alerts →
  (buffer.sync (Some alerts) clock b).1 !! key
  = Some (SetResolved (clock key).1 (clock key).2 stored).
Proof.
  intros Hb Hs Hn. rewrite sync_lookup, Hb. simpl.
  unfold buffer.sync_entry. by rewrite !bool_decide_eq_true_2.
Qed.

Lemma SetLoads_singleton (clock : nat → Time) (a : Alert)
    (b : gmap string Alert) :
  buffer.SetLoads clock [a] b = buffer.SetLoads_body (clock 0%nat) b a.
Proof. reflexivity. Qed.

(** The storage engine read a record while it was firing, and before it
    reports the save a sweep resolves the stored record.  The late
    [SetLoads] for the firing record is ignored: the resolved record stays
    unsaved. *)
Theorem SetLoads_after_sync_is_ignored
    (alerts : Alerts) (clock : string → Time * Time) (clock' : nat → Time)
    (b : gmap string Alert) (a stored : Alert) :
  b !! Key a = Some stored → Status stored = Firing → Status a = Firing →
  Key a ∉ buffer.firingSet alerts →
  buffer.SetLoads clock' [a] (buffer.sync (Some alerts) clock b).1
  = (buffer.sync (Some alerts) clock b).1
  ∧ ∃ a', (buffer.sync (Some alerts) clock b).1 !! Key a = Some a'
          ∧ Loaded a' = false.
Proof.
  intros Hb Hs Ha Hn.
  pose proof (sync_resolved_lookup alerts clock b _ _ Hb Hs Hn) as Hl.
  split; [|by eexists].
  rewrite SetLoads_singleton. unfold buffer.SetLoads_body.
  rewrite Hl.
  assert (HE : Equal (SetResolved (clock (Key a)).1 (clock (Key a)).2 stored)
                 a = false).
  { apply not_true_iff_false. rewrite Equal_spec. simpl.
    intros (_ & H & _). rewrite Ha in H. discriminate. }
  by rewrite HE.
Qed.

Lemma SetLoads_after_sync_is_ignored_witness :
  samples.twoFiring !! Key samples.f1 = Some samples.f1
  ∧ (Key samples.f1 ∉ buffer.firingSet [samples.f0])
  ∧ buffer.SetLoads (λ _, samples.t2) [samples.f1]
      (buffer.sync (Some [samples.f0]) (λ _, (samples.t2, samples.t2))
         samples.twoFiring).1
    = (buffer.sync (Some [samples.f0]) (λ _, (samples.t2, samples.t2))
         samples.twoFiring).1.
Proof.
  assert (Hb : samples.twoFiring !! Key samples.f1 = Some samples.f1)
    by (vm_compute; reflexivity).
  assert (Hn : Key samples.f1 ∉ buffer.firingSet [samples.f0]).
  { intros Hin. apply firingSet_spec in Hin as (x & Hx & Hkey).
    apply list_elem_of_singleton in Hx. subst x.
    vm_compute in Hkey. discriminate. }
  split; [exact Hb|]. split; [exact Hn|].
  exact (proj1 (SetLoads_after_sync_is_ignored [samples.f0]
                  (λ _, (samples.t2, samples.t2)) (λ _, samples.t2)
                  samples.twoFiring samples.f1 samples.f1
                  Hb eq_refl eq_refl Hn)).
Defined.

(** A record that a sweep resolved is opened again by the next delivery of
    a firing record with its key: [Update] puts the incoming record in the
    place of the resolved one. *)
Theorem Update_reopens_after_sync
    (alerts : Alerts) (clock : string → Time * Time)
    (b : gmap string Alert) (a stored : Alert) :
  b !! Key a = Some stored → Status stored = Firing → Status a = Firing →
  Key a ∉ buffer.firingSet alerts →
  buffer.Update true (buffer.sync (Some alerts) clock b).1 [a]
  = (<[Key a := a]> (buffer.sync (Some alerts) clock b).1, buffer.Done).
Proof.
  intros Hb Hs Ha Hn.
  pose proof (sync_resolved_lookup alerts clock b _ _ Hb Hs Hn) as Hl.
  apply Update_singleton. unfold buffer.Update_body. rewrite Hl.
  assert (HE : Equal a
                 (SetResolved (clock (Key a)).1 (clock (Key a)).2 stored)
               = false).
  { apply not_true_iff_false. rewrite Equal_spec. simpl.
    intros (_ & H & _). rewrite Ha in H. discriminate. }
  by rewrite HE.
Qed.

Lemma Update_reopens_after_sync_witness :
  samples.twoFiring !! Key samples.f1 = Some samples.f1
  ∧ (Key samples.f1 ∉ buffer.firingSet [samples.f0])
  ∧ buffer.Update true
      (buffer.sync (Some [samples.f0]) (λ _, (samples.t2, samples.t2))
         samples.twoFiring).1 [samples.f1]
    = (<[Key samples.f1 := samples.f1]>
         (buffer.sync (Some [samples.f0]) (λ _, (samples.t2, samples.t2))
            samples.twoFiring).1, buffer.Done).
Proof.
  assert (Hb : samples.twoFiring !! Key samples.f1 = Some samples.f1)
    by (vm_compute; reflexivity).
  assert (Hn : Key samples.f1 ∉ buffer.firingSet [samples.f0]).
  { intros Hin. apply firingSet_spec in Hin as (x & Hx & Hkey).
    apply list_elem_of_singleton in Hx. subst x.
    vm_compute in Hkey. discriminate. }
  split; [exact Hb|]. split; [exact Hn|].
  exact (Update_reopens_after_sync [samples.f0]
           (λ _, (samples.t2, samples.t2))
           samples.twoFiring samples.f1 samples.f1 Hb eq_refl eq_refl Hn).
Defined.

(** ** The snapshot *)

(** The snapshot of a buffer whose records are stored under their keys has
    one record per key of the buffer, holds exactly the records that the
    buffer stores, and no two of its records have the same key. *)
Theorem DeepCopy_lists_the_buffer (b : gmap string Alert) :
  buffer.keyed b →
  length (snapshot.DeepCopy b) = size b
  ∧ (∀ a, a ∈ snapshot.DeepCopy b ↔ b !! Key a = Some a)
  ∧ NoDup (Key <$> snapshot.DeepCopy b).
Proof.
  intros Hk. unfold snapshot.DeepCopy. split; [|split].
  - by rewrite length_fmap, length_map_to_list.
  - intros a. rewrite list_elem_of_fmap. split.
    + intros ([key x] & -> & Hin). apply elem_of_map_to_list in Hin.
      simpl. by rewrite (Hk _ _ Hin).
    + intros Ha. exists (Key a, a). split; [done|].
      by apply elem_of_map_to_list.
  - assert (Heq : Key <$> (map_to_list b).*2 = (map_to_list b).*1).
    { rewrite <- list_fmap_compose. apply list_fmap_ext.
      intros i [key x] Hi. simpl. apply Hk.
      apply elem_of_map_to_list. by eapply list_elem_of_lookup_2. }
    rewrite Heq. apply NoDup_fst_map_to_list.
Qed.

Lemma DeepCopy_lists_the_buffer_witness :
  buffer.keyed samples.twoFiring
  ∧ length (snapshot.DeepCopy samples.twoFiring) = 2%nat
  ∧ NoDup (Key <$> snapshot.DeepCopy samples.twoFiring).
Proof.
  assert (Hk : buffer.keyed samples.twoFiring).
  { unfold samples.twoFiring.
    apply keyed_insert; [reflexivity|].
    apply keyed_insert; [reflexivity|]. apply keyed_empty. }
  pose proof (DeepCopy_lists_the_buffer samples.twoFiring Hk) as H.
  destruct H as [Hlen H]. destruct H as [_ Hnd].
  split; [exact Hk|]. split; [|exact Hnd].
  rewrite Hlen. vm_compute. reflexivity.
Defined.

(** ** The workers and the collecting loop of Save *)

(** The empty batch: the collecting loop has no iteration, so [Save] returns
    the empty slice at once, for any number of workers and without a single
    save. *)
Theorem Save_of_the_empty_batch
    (save : Alert → bool) (opts : storage.Options) (fuel : nat) :
  storage.Save fuel save opts [] = storage.Returns []
  ∧ ∀ l, storage.Save_returns save opts [] l ↔ l = [].
Proof.
  split; [by destruct fuel|]. intros l. apply Save_returns_nil.
Qed.

Lemma elem_of_insert_inv {A} (l : list A) (i : nat) (w x : A) :
  x ∈ <[i := w]> l → x = w ∨ x ∈ l.
Proof.
  intros H. apply list_elem_of_lookup in H as [j Hj].
  apply list_lookup_insert_Some in Hj as [(_ & -> & _)|[_ Hj]]; [by left|].
  right. by eapply list_elem_of_lookup_2.
Qed.

Lemma moves_inv (save : Alert → bool) (st st' : storage.SaveState) :
  st' ∈ storage.moves save st →
  ∃ i, st' ∈ storage.worker_moves save st i.
Proof.
  unfold storage.moves. rewrite list_elem_of_In, in_flat_map.
  intros (i & _ & H). exists i. by apply list_elem_of_In.
Qed.

Lemma collected_from_step (save : Alert → bool)
    (st0 st st' : storage.SaveState) :
  collected_from save st0 st → storage.step save st st' →
  collected_from save st0 st'.
Proof.
  intros (Hc & Hl & [taken Hs] & Ha) Hstep.
  apply moves_inv in Hstep as [i Hi]. unfold storage.worker_moves in Hi.
  destruct (storage.workers st !! i) as [[|x| |]|] eqn:Hw;
    try (by apply elem_of_nil in Hi).
  - destruct (storage.senders st) as [|x rest] eqn:Hsend.
    + destruct (storage.closed st); [|by apply elem_of_nil in Hi].
      apply list_elem_of_singleton in Hi as ->.
      unfold collected_from, storage.setWorker. simpl.
      split; [done|]. split; [done|].
      split; [exists taken; by rewrite Hsend|].
      intros a [H|H]; [by auto|].
      apply elem_of_insert_inv in H as [H|H]; [done|by auto].
    + apply list_elem_of_singleton in Hi as ->.
    unfold collected_from. simpl.
      split; [done|]. split; [done|].
      split; [exists (taken ++ [x]); by rewrite Hs, <- app_assoc|].
      intros a [H|H]; [by auto|].
      apply elem_of_insert_inv in H as [H|H]; [|by auto].
      destruct (save x) eqn:Hx; [|done]. injection H as ->.
      right; right. split; [done|]. rewrite Hs.
      apply elem_of_app. right. apply list_elem_of_here.
  - destruct (storage.remaining st) as [|n] eqn:Hr;
      [by apply elem_of_nil in Hi|].
    apply list_elem_of_singleton in Hi as ->.
    unfold collected_from. simpl.
    split; [lia|]. split; [rewrite length_app; simpl; lia|].
    split; [by exists taken|].
    intros a [H|H].
    + apply elem_of_app in H as [H|H]; [by auto|].
      apply list_elem_of_singleton in H as ->.
      apply Ha. right. by eapply list_elem_of_lookup_2.
    + apply elem_of_insert_inv in H as [H|H]; [done|by auto].
  - destruct (storage.remaining st) as [|n] eqn:Hr;
      [by apply elem_of_nil in Hi|].
    apply list_elem_of_singleton in Hi as ->.
    unfold collected_from. simpl.
    split; [lia|]. split; [lia|]. split; [by exists taken|].
    intros a [H|H]; [by auto|].
    apply elem_of_insert_inv in H as [H|H]; [done|by auto].
Qed.

(** In every run of the workers and the collecting loop, whatever is sent on
    [intermediate]: each iteration of the loop counts one success or one
    failure, the records collected are as many as the successes counted,
    and a record is collected only if a worker was already handing it over
    at the start or it was sent on [intermediate] and its save succeeded. *)
Theorem Save_collects_saved_records_only
    (save : Alert → bool) (st0 st : storage.SaveState) :
  rtc (storage.step save) st0 st →
  (storage.successCount st + storage.failedCount st + storage.remaining st
   = storage.successCount st0 + storage.failedCount st0
     + storage.remaining st0)%nat
  ∧ (length (storage.successAlerts st) + storage.successCount st0
     = length (storage.successAlerts st0) + storage.successCount st)%nat
  ∧ ∀ a, a ∈ storage.successAlerts st →
         a ∈ storage.successAlerts st0
         ∨ storage.SendingSuccess a ∈ storage.workers st0
         ∨ (save a = true ∧ a ∈ storage.senders st0).
Proof.
  intros Hrun.
  assert (H : collected_from save st0 st).
  { revert st Hrun. apply rtc_ind_r.
    - split; [done|]. split; [done|]. split; [by exists []|].
      intros a [H|H]; by auto.
    - intros st1 st2 _ Hstep IH. by eapply collected_from_step. }
  destruct H as (Hc & Hl & _ & Ha). split; [done|]. split; [done|].
  intros a H. apply Ha. by left.
Qed.

Lemma Save_collects_saved_records_only_witness :
  rtc (storage.step savesResolved) fed fedTaken
  ∧ (storage.successCount fedTaken + storage.failedCount fedTaken
     + storage.remaining fedTaken = 2)%nat.
Proof.
  assert (Hrun : rtc (storage.step savesResolved) fed fedTaken).
  { apply rtc_once. unfold storage.step. vm_compute.
    apply list_elem_of_here. }
  split; [exact Hrun|].
  pose proof (Save_collects_saved_records_only savesResolved fed fedTaken
                Hrun) as H.
  destruct H as [H _]. exact H.
Defined.

(** ** Asking the controller *)

Lemma fetch_cases (world : string → http.Exchange) (clock : nat → Time)
    (addr : string) (active silenced inhibited unprocessed : bool) :
  (∃ rlt,
     world (http.url addr active silenced inhibited unprocessed)
     = http.Answered http.StatusOK (Some rlt)
     ∧ http.GetFiringAlertsFromAlertmanager world clock addr active silenced
         inhibited unprocessed
       = (imap (λ i j, http.toAlert (clock i) (http.UnmarshalJSON j)) rlt,
          None))
  ∨ ((∀ rlt, world (http.url addr active silenced inhibited unprocessed)
             ≠ http.Answered http.StatusOK (Some rlt))
     ∧ ∃ e, http.GetFiringAlertsFromAlertmanager world clock addr active
              silenced inhibited unprocessed = ([], Some e)).
Proof.
  unfold http.GetFiringAlertsFromAlertmanager.
  destruct (world _) as [| |code [rlt|]]; try (right; split; [done|by eexists]).
  - case_bool_decide as Hc.
    + right. split; [|by eexists]. intros rlt' [= ? _]. done.
    + left. exists rlt. split; [|done]. f_equal.
      destruct (decide (code = http.StatusOK)); [done|]. by destruct Hc.
  - case_bool_decide; right; (split; [done|by eexists]).
Qed.

(** The request to the controller gives alerts only when it is answered
    with status 200 and a body that decodes; in every other case (no
    request, no answer, another status, a body that does not decode) it
    gives an error and no alert at all. *)
Theorem fetch_fails_with_no_alert
    (world : string → http.Exchange) (clock : nat → Time)
    (addr : string) (active silenced inhibited unprocessed : bool) :
  ((http.GetFiringAlertsFromAlertmanager world clock addr active silenced
      inhibited unprocessed).2 = None
   ↔ ∃ rlt, world (http.url addr active silenced inhibited unprocessed)
            = http.Answered http.StatusOK (Some rlt))
  ∧ ((http.GetFiringAlertsFromAlertmanager world clock addr active silenced
        inhibited unprocessed).2 ≠ None →
     (http.GetFiringAlertsFromAlertmanager world clock addr active silenced
        inhibited unprocessed).1 = []).
Proof.
  destruct (fetch_cases world clock addr active silenced inhibited
              unprocessed) as [(rlt & Hw & ->)|(Hw & e & ->)]; simpl.
  - split; [|done]. split; [by exists rlt|done].
  - split; [|done]. split; [done|]. intros [rlt Hr]. by destruct (Hw rlt).
Qed.

(** When the controller answers, the result has one alert for each alert of
    the answer, in the same order and with the same fingerprints and
    starts; every one of them is firing, whatever status the answer gave
    it, and none is [Loaded]. *)
Theorem fetch_gives_firing_alerts
    (world : string → http.Exchange) (clock : nat → Time)
    (addr : string) (active silenced inhibited unprocessed : bool)
    (rlt : http.Alerts) :
  world (http.url addr active silenced inhibited unprocessed)
  = http.Answered http.StatusOK (Some rlt) →
  length (http.GetFiringAlertsFromAlertmanager world clock addr active
            silenced inhibited unprocessed).1 = length rlt
  ∧ Fingerprint <$> (http.GetFiringAlertsFromAlertmanager world clock addr
                       active silenced inhibited unprocessed).1
    = http.Fingerprint <$> rlt
  ∧ StartsAt <$> (http.GetFiringAlertsFromAlertmanager world clock addr
                    active silenced inhibited unprocessed).1
    = http.StartsAt <$> rlt
  ∧ Forall (λ a, Status a = Firing ∧ Loaded a = false)
      (http.GetFiringAlertsFromAlertmanager world clock addr active silenced
         inhibited unprocessed).1.
Proof.
  intros Hw.
  destruct (fetch_cases world clock addr active silenced inhibited
              unprocessed) as [(rlt' & Hw' & ->)|(Hn & _)];
    [|by destruct (Hn rlt)].
  assert (rlt' = rlt) as -> by congruence. simpl.
  unfold http.Alerts in *.
  split; [apply length_imap|].
  split; [|split].
  - apply list_eq. intros i.
    rewrite !list_lookup_fmap, list_lookup_imap.
    destruct (rlt !! i); reflexivity.
  - apply list_eq. intros i.
    rewrite !list_lookup_fmap, list_lookup_imap.
    destruct (rlt !! i); reflexivity.
  - apply Forall_forall. intros a Ha.
    apply elem_of_lookup_imap in Ha as (i & j & -> & _). done.
Qed.

Lemma fetch_gives_firing_alerts_witness :
  answers (http.Answered http.StatusOK (Some [reported]))
    (http.url "alertmanager:9093" true false false false)
  = http.Answered http.StatusOK (Some [reported])
  ∧ Forall (λ a, Status a = Firing ∧ Loaded a = false)
      (http.GetFiringAlertsFromAlertmanager
         (answers (http.Answered http.StatusOK (Some [reported])))
         (λ _, samples.t2) "alertmanager:9093" true false false false).1.
Proof.
  split; [reflexivity|].
  pose proof (fetch_gives_firing_alerts
                (answers (http.Answered http.StatusOK (Some [reported])))
                (λ _, samples.t2) "alertmanager:9093" true false false false
                [reported] eq_refl) as H.
  destruct H as [_ H]. destruct H as [_ H]. destruct H as [_ H]. exact H.
Defined.

(** ** The sweep with its request *)

(** The sweep with its request never adds or removes a key; it returns an
    error exactly when the controller gives no decodable answer with status
    200 for the URL of the active alerts, and then the buffer is left as it
    was. *)
Theorem sync_without_answer_changes_nothing
    (world : string → http.Exchange) (fetchClock : nat → Time)
    (clock : string → Time * Time) (opts : buffer.Options)
    (b : gmap string Alert) :
  dom (reconcile.sync world fetchClock clock opts b).1 = dom b
  ∧ ((reconcile.sync world fetchClock clock opts b).2 = true
     ↔ ¬ ∃ rlt, world (http.url (buffer.alertmanagerAddr opts)
                         true false false false)
                = http.Answered http.StatusOK (Some rlt))
  ∧ ((reconcile.sync world fetchClock clock opts b).2 = true →
     (reconcile.sync world fetchClock clock opts b).1 = b).
Proof.
  unfold reconcile.sync.
  destruct (fetch_cases world fetchClock (buffer.alertmanagerAddr opts)
              true false false false) as [(rlt & Hw & ->)|(Hw & e & ->)].
  - split; [apply sync_dom|]. split; [|done]. split; [done|].
    intros Hn. destruct Hn. by exists rlt.
  - split; [done|]. split; [|done]. split; [|done].
    intros _ [rlt Hr]. by destruct (Hw rlt).
Qed.

(** With an answer of the controller, a stored firing record stays as it is
    exactly when the answer holds an alert with its fingerprint and with a
    start in the same millisecond; otherwise the sweep resolves it. *)
Theorem sync_keeps_what_the_controller_reports
    (world : string → http.Exchange) (fetchClock : nat → Time)
    (clock : string → Time * Time) (opts : buffer.Options)
    (b : gmap string Alert) (rlt : http.Alerts) (a : Alert) :
  world (http.url (buffer.alertmanagerAddr opts) true false false false)
  = http.Answered http.StatusOK (Some rlt) →
  b !! Key a = Some a →
  Status a = Firing →
  ((reconcile.sync world fetchClock clock opts b).1 !! Key a = Some a
   ↔ ∃ j, j ∈ rlt ∧ http.Fingerprint j = Fingerprint a
          ∧ UnixMilli (http.StartsAt j) = UnixMilli (StartsAt a))
  ∧ ((reconcile.sync world fetchClock clock opts b).1 !! Key a = Some a
     ∨ ∃ a', (reconcile.sync world fetchClock clock opts b).1 !! Key a
             = Some a' ∧ Status a' = Resolved ∧ Loaded a' = false).
Proof.
  intros Hw Hb Hs. unfold reconcile.sync.
  destruct (fetch_cases world fetchClock (buffer.alertmanagerAddr opts)
              true false false false) as [(rlt' & Hw' & ->)|(Hn & _)];
    [|by destruct (Hn rlt)].
  assert (rlt' = rlt) as -> by congruence.
  rewrite sync_lookup, Hb. simpl. unfold buffer.sync_entry.
  rewrite (bool_decide_eq_true_2 (Status a = Firing)) by done.
  rewrite andb_true_r.
  assert (Hset : Key a ∈ buffer.firingSet
                   (imap (λ i j, http.toAlert (fetchClock i)
                                   (http.UnmarshalJSON j)) rlt)
                 ↔ ∃ j, j ∈ rlt ∧ http.Fingerprint j = Fingerprint a
                        ∧ UnixMilli (http.StartsAt j)
                          = UnixMilli (StartsAt a)).
  { rewrite firingSet_spec. split.
    - intros (x & Hx & Hk). apply elem_of_lookup_imap in Hx as (i & j & -> & Hj).
      exists j. split; [by eapply list_elem_of_lookup_2|].
      unfold Key in Hk. by apply Key_parts in Hk.
    - intros (j & Hj & Hf & Hm). apply list_elem_of_lookup in Hj as [i Hi].
      exists (http.toAlert (fetchClock i) (http.UnmarshalJSON j)).
      split.
      { exact (elem_of_lookup_imap_2
                 (λ i j, http.toAlert (fetchClock i) (http.UnmarshalJSON j))
                 rlt j i Hi). }
      unfold Key. apply Key_parts. by split. }
  rewrite <- Hset. case_bool_decide as Hin; simpl.
  - split; [|right; by eexists].
    split; [|done]. intros [= H].
    assert (HS : Status (SetResolved (clock (Key a)).1 (clock (Key a)).2 a)
                 = Status a) by (by rewrite H).
    simpl in HS. rewrite Hs in HS. discriminate.
  - split; [|by left]. split; [|done]. intros _. exact Hin.
Qed.

Lemma sync_keeps_what_the_controller_reports_witness :
  samples.twoFiring !! Key samples.f0 = Some samples.f0
  ∧ (reconcile.sync (answers (http.Answered http.StatusOK (Some [reported])))
       (λ _, samples.t2) (λ _, (samples.t2, samples.t2))
       buffer.defaultOptions samples.twoFiring).1 !! Key samples.f0
    = Some samples.f0.
Proof.
  assert (Hb : samples.twoFiring !! Key samples.f0 = Some samples.f0)
    by (vm_compute; reflexivity).
  split; [exact Hb|].
  pose proof (sync_keeps_what_the_controller_reports
                (answers (http.Answered http.StatusOK (Some [reported])))
                (λ _, samples.t2) (λ _, (samples.t2, samples.t2))
                buffer.defaultOptions samples.twoFiring [reported]
                samples.f0 eq_refl Hb eq_refl) as H.
  destruct H as [H _]. apply H. exists reported.
  split; [apply list_elem_of_here|]. split; reflexivity.
Defined.

(** ** The webhook handler *)

Lemma decoded_keys (payload : list (Time * Alert)) (b : gmap string Alert) :
  Forall (λ a, Key a ∈ dom b) ((λ p, UnmarshalJSON p.1 p.2) <$> payload)
  ↔ Forall (λ p, Key p.2 ∈ dom b) payload.
Proof. by rewrite Forall_fmap. Qed.

(** The handler answers 200 exactly when the body decodes, carries the
    supported version, the lock is acquired in time and the key of every
    alert of the body is already stored. *)
Theorem postWebhook_answers_200
    (o : webhook.Options) (acquired : bool) (body : webhook.Body)
    (b : gmap string Alert) :
  (webhook.postWebhook o acquired body b).2 = webhook.Code webhook.StatusOK
  ↔ ∃ ag, body = webhook.Decoded ag
          ∧ webhook.Version ag = webhook.supportVersion o
          ∧ acquired = true
          ∧ Forall (λ p, Key p.2 ∈ dom b) (webhook.Alerts ag).
Proof.
  unfold webhook.postWebhook. destruct body as [| |ag].
  - split; [done|]. by intros (ag & ? & _).
  - split; [done|]. by intros (ag & ? & _).
  - case_bool_decide as Hv.
    + split; [done|]. intros (ag' & [= <-] & Hv' & _). done.
    + assert (Hv' : webhook.Version ag = webhook.supportVersion o).
      { destruct (decide (webhook.Version ag = webhook.supportVersion o));
          [done|by destruct Hv]. }
      pose proof (Update_loop_result
                    ((λ p, UnmarshalJSON p.1 p.2) <$> webhook.Alerts ag) b)
        as Hr.
      unfold buffer.Update. destruct acquired.
      * destruct (buffer.Update_loop b _) as [b' r]. simpl in Hr. subst r.
        case_bool_decide as HF.
        -- split; [|done]. intros _. exists ag.
           repeat split; try done. by apply decoded_keys.
        -- split; [done|]. intros (ag' & [= <-] & _ & _ & HF').
           destruct HF. by apply decoded_keys.
      * split; [done|]. by intros (ag' & _ & _ & ? & _).
Qed.

(** A request never adds or removes a key and never marks a record as
    [Loaded]; unless it is answered with 200 or the handler panics, it
    leaves the buffer as it was. *)
Theorem postWebhook_keeps_the_buffer
    (o : webhook.Options) (acquired : bool) (body : webhook.Body)
    (b : gmap string Alert) :
  dom (webhook.postWebhook o acquired body b).1 = dom b
  ∧ noNewLoaded b (webhook.postWebhook o acquired body b).1
  ∧ ((webhook.postWebhook o acquired body b).2
       = webhook.Code webhook.StatusBadRequest
     ∨ (webhook.postWebhook o acquired body b).2
       = webhook.Code webhook.StatusInternalServerError →
     (webhook.postWebhook o acquired body b).1 = b).
Proof.
  unfold webhook.postWebhook.
  destruct body as [| |ag];
    try (split; [done|]; split; [apply noNewLoaded_refl|done]).
  case_bool_decide;
    [split; [done|]; split; [apply noNewLoaded_refl|done]|].
  unfold buffer.Update. destruct acquired;
    [|split; [done|]; split; [apply noNewLoaded_refl|done]].
  pose proof (Update_loop_dom
                ((λ p, UnmarshalJSON p.1 p.2) <$> webhook.Alerts ag) b) as Hd.
  pose proof (Update_loop_noNewLoaded _ b
                (decoded_unloaded (webhook.Alerts ag))) as Hn.
  pose proof (Update_loop_result
                ((λ p, UnmarshalJSON p.1 p.2) <$> webhook.Alerts ag) b) as Hr.
  destruct (buffer.Update_loop b _) as [b' r]. simpl in *.
  destruct r; simpl.
  - split; [done|]. split; [done|]. by intros [|].
  - by case_bool_decide.
  - split; [done|]. split; [done|]. by intros [|].
Qed.

(** ** Saving one record *)

Section save_one.
Context {timestamp : Type} `{EqDecision timestamp}.
Variable toTimestamp : Time → timestamp.


Lemma matches_updateRow (a a' : Alert) (r : pg.AlertRow) :
  pg.matches toTimestamp a' (pg.updateRow toTimestamp a r) = pg.matches toTimestamp a' r.
Proof. unfold pg.updateRow. by destruct (pg.matches toTimestamp a r). Qed.

Lemma id_updateRow (a : Alert) (r : pg.AlertRow) :
  pg.id (pg.updateRow toTimestamp a r) = pg.id r.
Proof. unfold pg.updateRow. by destruct (pg.matches toTimestamp a r). Qed.

Lemma updateRow_twice (a : Alert) (r : pg.AlertRow) :
  pg.updateRow toTimestamp a (pg.updateRow toTimestamp a r) = pg.updateRow toTimestamp a r.
Proof.
  unfold pg.updateRow at 1. rewrite matches_updateRow.
  unfold pg.updateRow. by destruct (pg.matches toTimestamp a r).
Qed.

Lemma matches_newRow (newId : Z) (a : Alert) :
  pg.matches toTimestamp a (pg.newRow toTimestamp newId a) = true.
Proof. unfold pg.matches. simpl. by rewrite !bool_decide_eq_true_2. Qed.

Lemma updateRow_newRow (newId : Z) (a : Alert) :
  pg.updateRow toTimestamp a (pg.newRow toTimestamp newId a) = pg.newRow toTimestamp newId a.
Proof. unfold pg.updateRow. by rewrite matches_newRow. Qed.

Lemma find_updateRow (a : Alert) (rows : list pg.AlertRow) :
  List.find (pg.matches toTimestamp a) (pg.updateRow toTimestamp a <$> rows)
  = pg.updateRow toTimestamp a <$> List.find (pg.matches toTimestamp a) rows.
Proof.
  induction rows as [|r rows IH]; [done|]. rewrite fmap_cons.
  cbn [List.find]. rewrite matches_updateRow, IH.
  by destruct (pg.matches toTimestamp a r).
Qed.

Lemma find_none_updateRow (a : Alert) (rows : list pg.AlertRow) :
  List.find (pg.matches toTimestamp a) rows = None → pg.updateRow toTimestamp a <$> rows = rows.
Proof.
  induction rows as [|r rows IH]; [done|]. rewrite fmap_cons.
  cbn [List.find].
  destruct (pg.matches toTimestamp a r) eqn:Hm; [done|]. intros H.
  rewrite (IH H). unfold pg.updateRow. by rewrite Hm.
Qed.

Lemma find_app_none {A} (p : A → bool) (l1 l2 : list A) :
  List.find p l1 = None → List.find p (l1 ++ l2) = List.find p l2.
Proof.
  induction l1 as [|x l1 IH]; [done|]. simpl. by destruct (p x).
Qed.

(** What the loop over the annotations leaves in the table. *)
Lemma upsertAnnotations_lookup (fails : pg.Statement → bool) (alertId : Z)
    (l : list (string * string)) (t t' : gmap (Z * string) string) :
  NoDup l.*1 →
  pg.upsertAnnotations fails alertId l t = Some t' →
  ∀ i k, t' !! (i, k)
         = if decide (i = alertId)
           then match (list_to_map l : gmap string string) !! k with
                | Some v => Some v
                | None => t !! (i, k)
                end
           else t !! (i, k).
Proof.
  revert t. induction l as [|[k0 v0] l IH]; intros t Hnd Hup i k.
  - injection Hup as <-. rewrite list_to_map_nil, lookup_empty.
    by case_decide.
  - cbn [pg.upsertAnnotations] in Hup.
    destruct (fails (pg.UpsertAnnotation k0)); [done|].
    rewrite fmap_cons in Hnd. apply NoDup_cons in Hnd as [Hk0 Hnd].
    rewrite (IH _ Hnd Hup i k), list_to_map_cons. case_decide as Hi.
    + subst i. destruct (decide (k0 = k)) as [->|Hk].
      * rewrite (lookup_insert_eq (list_to_map l)).
        rewrite (not_elem_of_list_to_map_1 (M := gmap string) l k Hk0).
        by rewrite lookup_insert_eq.
      * rewrite (lookup_insert_ne (list_to_map l)) by done.
        destruct (list_to_map l !! k); [done|].
        rewrite lookup_insert_ne; [done|]. congruence.
    + rewrite lookup_insert_ne; [done|]. congruence.
Qed.

Lemma upsertAnnotations_ok (fails : pg.Statement → bool) (alertId : Z)
    (l : list (string * string)) (t : gmap (Z * string) string) :
  (∀ s, fails s = false) →
  is_Some (pg.upsertAnnotations fails alertId l t).
Proof.
  intros Hok. revert t. induction l as [|[k v] l IH]; intros t; simpl.
  - by eexists.
  - rewrite Hok. apply IH.
Qed.

Lemma upsertAnnotations_again (fails fails' : pg.Statement → bool)
    (alertId : Z) (m : gmap string string)
    (t t' : gmap (Z * string) string) :
  (∀ s, fails' s = false) →
  pg.upsertAnnotations fails alertId (map_to_list m) t = Some t' →
  pg.upsertAnnotations fails' alertId (map_to_list m) t' = Some t'.
Proof.
  intros Hok Hup.
  destruct (upsertAnnotations_ok fails' alertId (map_to_list m) t' Hok)
    as [t'' Hup'].
  rewrite Hup'. f_equal. apply map_eq. intros [i k].
  rewrite (upsertAnnotations_lookup _ _ _ _ _
             (NoDup_fst_map_to_list m) Hup' i k).
  rewrite (upsertAnnotations_lookup _ _ _ _ _
             (NoDup_fst_map_to_list m) Hup i k).
  case_decide; [|done]. by destruct (list_to_map (map_to_list m) !! k).
Qed.

Lemma insertLabels_app (fails : pg.Statement → bool) (alertId : Z)
    (l : list (string * string)) (rows rows' : list (Z * string * string)) :
  pg.insertLabels fails alertId l rows = Some rows' →
  rows' = rows ++ ((λ kv, (alertId, kv.1, kv.2)) <$> l).
Proof.
  revert rows. induction l as [|[k v] l IH]; intros rows; simpl.
  - intros [= <-]. by rewrite app_nil_r.
  - destruct (fails (pg.InsertLabel k)); [done|]. intros H.
    rewrite (IH _ H). by rewrite <- app_assoc.
Qed.

(** The outcomes of [pg.save toTimestamp]: an error with the tables unchanged, or no error
    and the tables that the branch and the loop over the annotations
    leave. *)
Lemma save_cases (fails : pg.Statement → bool) (newId : Z)
    (db : pg.Database) (a : Alert) :
  pg.save toTimestamp fails newId db a = (db, true)
  ∨ ∃ alertId tx annotations,
      pg.insertOrUpdate toTimestamp fails newId db a = Some (alertId, tx)
      ∧ pg.upsertAnnotations fails alertId (map_to_list (Annotations a))
          (pg.AlertAnnotation tx) = Some annotations
      ∧ pg.save toTimestamp fails newId db a
        = ({| pg.Alert := pg.Alert tx; pg.AlertLabel := pg.AlertLabel tx;
              pg.AlertAnnotation := annotations |}, false).
Proof.
  unfold pg.save, pg.statements.
  destruct (fails pg.Acquire); [by left|].
  destruct (fails pg.Begin); [by left|].
  destruct (fails pg.SelectId); [by left|].
  destruct (pg.insertOrUpdate toTimestamp fails newId db a)
    as [[alertId tx]|] eqn:Hb; [|by left].
  destruct (pg.upsertAnnotations fails alertId _ _) as [annotations|] eqn:Hu;
    [|by left].
  destruct (fails pg.Commit); [by left|].
  right. by exists alertId, tx, annotations.
Qed.

Lemma insertOrUpdate_cases (fails : pg.Statement → bool) (newId : Z)
    (db : pg.Database) (a : Alert) (alertId : Z) (tx : pg.Database) :
  pg.insertOrUpdate toTimestamp fails newId db a = Some (alertId, tx) →
  (pg.selectId toTimestamp db a = -1 ∧ alertId = newId
   ∧ pg.Alert tx = pg.Alert db ++ [pg.newRow toTimestamp newId a]
   ∧ pg.AlertLabel tx
     = pg.AlertLabel db
       ++ ((λ kv, (newId, kv.1, kv.2)) <$> map_to_list (Labels a))
   ∧ pg.AlertAnnotation tx = pg.AlertAnnotation db)
  ∨ (pg.selectId toTimestamp db a ≠ -1 ∧ alertId = pg.selectId toTimestamp db a
     ∧ pg.Alert tx = pg.updateRow toTimestamp a <$> pg.Alert db
     ∧ pg.AlertLabel tx = pg.AlertLabel db
     ∧ pg.AlertAnnotation tx = pg.AlertAnnotation db).
Proof.
  unfold pg.insertOrUpdate. case_bool_decide as Hid.
  - destruct (fails pg.InsertAlert); [done|].
    destruct (pg.insertLabels fails newId _ _) as [labels|] eqn:Hl; [|done].
    intros [= <- <-]. left. simpl.
    by rewrite (insertLabels_app _ _ _ _ _ Hl).
  - destruct (fails pg.UpdateAlert); [done|].
    intros [= <- <-]. by right.
Qed.

(** Labels are written once.  When the table holds a row for the alert
    (the [SELECT] gives an id other than -1), [save] does not touch the
    table of the labels, whatever labels the record carries and however the
    call ends. *)
Theorem save_writes_labels_once
    (fails : pg.Statement → bool) (newId : Z) (db : pg.Database) (a : Alert) :
  pg.selectId toTimestamp db a ≠ -1 →
  pg.AlertLabel (pg.save toTimestamp fails newId db a).1 = pg.AlertLabel db.
Proof.
  intros Hid.
  destruct (save_cases fails newId db a)
    as [->|(alertId & tx & anns & Hb & _ & ->)]; [done|]. simpl.
  apply insertOrUpdate_cases in Hb
    as [(Hs & _)|(_ & _ & _ & Hl & _)]; [done|done].
Qed.

(** An alert that the table does not hold: when [save] returns no error, the
    table has one more row, with the id that the store gave and the fields
    of the record, and the table of the labels has one more row for each
    label of the record, under that id. *)
Theorem save_inserts_unknown_alert
    (fails : pg.Statement → bool) (newId : Z) (db db' : pg.Database)
    (a : Alert) :
  pg.selectId toTimestamp db a = -1 →
  pg.save toTimestamp fails newId db a = (db', false) →
  pg.Alert db' = pg.Alert db ++ [pg.newRow toTimestamp newId a]
  ∧ length (pg.AlertLabel db') = (length (pg.AlertLabel db)
                                  + size (Labels a))%nat
  ∧ ∀ row, row ∈ pg.AlertLabel db'
           ↔ row ∈ pg.AlertLabel db
             ∨ ∃ k v, Labels a !! k = Some v ∧ row = (newId, k, v).
Proof.
  intros Hid Hsave.
  destruct (save_cases fails newId db a)
    as [Hf|(alertId & tx & anns & Hb & _ & Hs)]; [congruence|].
  rewrite Hs in Hsave. injection Hsave as <-. simpl.
  apply insertOrUpdate_cases in Hb
    as [(_ & _ & Hrows & Hl & _)|(Hn & _)]; [|done].
  split; [done|]. rewrite Hl. split.
  - by rewrite length_app, length_fmap, length_map_to_list.
  - intros row. rewrite elem_of_app, list_elem_of_fmap.
    split; (intros [H|H]; [by left|right]).
    + destruct H as ([k v] & -> & Hin). exists k, v.
      by apply elem_of_map_to_list in Hin.
    + destruct H as (k & v & Hkv & ->). exists (k, v).
      split; [done|]. by apply elem_of_map_to_list.
Qed.

(** The annotations are written over.  When [save] returns no error, the
    table of the annotations holds, under the id of the row of the alert,
    the value of every annotation of the record; every other entry is as it
    was, also the entries of annotations that the record no longer has. *)
Theorem save_upserts_annotations
    (fails : pg.Statement → bool) (newId : Z) (db db' : pg.Database)
    (a : Alert) :
  pg.save toTimestamp fails newId db a = (db', false) →
  ∃ alertId,
    (pg.selectId toTimestamp db a = -1 ∧ alertId = newId
     ∨ pg.selectId toTimestamp db a ≠ -1
       ∧ alertId = pg.selectId toTimestamp db a)
    ∧ ∀ i k,
        pg.AlertAnnotation db' !! (i, k)
        = if decide (i = alertId)
          then match Annotations a !! k with
               | Some v => Some v
               | None => pg.AlertAnnotation db !! (i, k)
               end
          else pg.AlertAnnotation db !! (i, k).
Proof.
  intros Hsave.
  destruct (save_cases fails newId db a)
    as [Hf|(alertId & tx & anns & Hb & Hu & Hs)]; [congruence|].
  rewrite Hs in Hsave. injection Hsave as <-. simpl.
  exists alertId.
  assert (Hid : (pg.selectId toTimestamp db a = -1 ∧ alertId = newId
                 ∨ pg.selectId toTimestamp db a ≠ -1
                   ∧ alertId = pg.selectId toTimestamp db a)
                ∧ pg.AlertAnnotation tx = pg.AlertAnnotation db).
  { apply insertOrUpdate_cases in Hb
      as [(? & ? & _ & _ & ?)|(? & ? & _ & _ & ?)]; [by auto|by auto]. }
  destruct Hid as [Hid Ht]. split; [done|]. intros i k.
  rewrite (upsertAnnotations_lookup _ _ _ _ _
             (NoDup_fst_map_to_list (Annotations a)) Hu i k).
  by rewrite list_to_map_to_list, Ht.
Qed.

(** Saving is repeatable.  In a table without the id -1, after a [save] of
    a record that returned no error, a second [save] of the same record in
    which no call fails returns no error and leaves all three tables as the
    first left them. *)
Theorem save_again_changes_nothing
    (fails fails' : pg.Statement → bool) (newId newId' : Z)
    (db db' : pg.Database) (a : Alert) :
  Forall (λ r, pg.id r ≠ -1) (pg.Alert db) →
  newId ≠ -1 →
  pg.save toTimestamp fails newId db a = (db', false) →
  (∀ s, fails' s = false) →
  pg.save toTimestamp fails' newId' db' a = (db', false).
Proof.
  intros Hids Hnew Hsave Hok.
  destruct (save_cases fails newId db a)
    as [Hf|(alertId & tx & anns & Hb & Hu & Hs)]; [congruence|].
  rewrite Hs in Hsave. injection Hsave as <-.
  assert (Hsel : pg.selectId toTimestamp
                   {| pg.Alert := pg.Alert tx;
                      pg.AlertLabel := pg.AlertLabel tx;
                      pg.AlertAnnotation := anns |} a = alertId
                 ∧ alertId ≠ -1
                 ∧ pg.updateRow toTimestamp a <$> pg.Alert tx = pg.Alert tx
                 ∧ pg.AlertAnnotation tx = pg.AlertAnnotation db).
  { apply insertOrUpdate_cases in Hb
      as [(Hid & -> & Hrows & _ & Ht)|(Hid & -> & Hrows & _ & Ht)].
    - assert (Hnone : List.find (pg.matches toTimestamp a) (pg.Alert db)
                      = None).
      { unfold pg.selectId in Hid.
        destruct (List.find _ (pg.Alert db)) as [r|] eqn:Hfind; [|done].
        apply find_some in Hfind as [Hin _].
        rewrite Forall_forall in Hids.
        apply list_elem_of_In in Hin. by destruct (Hids r Hin). }
      unfold pg.selectId. simpl. rewrite Hrows.
      rewrite (find_app_none _ _ _ Hnone). simpl.
      rewrite matches_newRow. split; [done|]. split; [done|].
      split; [|done].
      rewrite fmap_app, (find_none_updateRow _ _ Hnone). simpl.
      by rewrite updateRow_newRow.
    - unfold pg.selectId in *. simpl. rewrite Hrows, find_updateRow.
      destruct (List.find (pg.matches toTimestamp a) (pg.Alert db))
        as [r|]; [|done]. simpl. rewrite id_updateRow.
      split; [done|]. split; [done|]. split; [|done].
      rewrite <- list_fmap_compose. apply list_fmap_ext.
      intros i r' _. simpl. apply updateRow_twice. }
  destruct Hsel as (Hsel & Hne & Hrows & Ht).
  unfold pg.save, pg.statements, pg.insertOrUpdate.
  rewrite !Hok, Hsel. rewrite bool_decide_eq_false_2 by done.
  simpl. rewrite Hrows.
  rewrite (upsertAnnotations_again fails fails' alertId (Annotations a)
             (pg.AlertAnnotation tx) anns Hok Hu).
  done.
Qed.

(** [save] never deletes: however the call ends, the rows of the table are
    the old rows, with their ids, fingerprints and starts, followed by at
    most one new row; the old rows of the labels are kept in place; and
    every annotation entry that was there is still there. *)
Theorem save_never_deletes
    (fails : pg.Statement → bool) (newId : Z) (db : pg.Database) (a : Alert) :
  (λ r, (pg.id r, pg.fingerprint r, pg.startsAt r)) <$> pg.Alert db
    `prefix_of`
    (λ r, (pg.id r, pg.fingerprint r, pg.startsAt r))
      <$> pg.Alert (pg.save toTimestamp fails newId db a).1
  ∧ (length (pg.Alert (pg.save toTimestamp fails newId db a).1)
     ≤ S (length (pg.Alert db)))%nat
  ∧ pg.AlertLabel db
      `prefix_of` pg.AlertLabel (pg.save toTimestamp fails newId db a).1
  ∧ dom (pg.AlertAnnotation db)
    ⊆ dom (pg.AlertAnnotation (pg.save toTimestamp fails newId db a).1).
Proof.
  destruct (save_cases fails newId db a)
    as [->|(alertId & tx & anns & Hb & Hu & ->)]; simpl.
  { split; [done|]. split; [lia|]. by split. }
  assert (Hd : dom (pg.AlertAnnotation tx) ⊆ dom anns).
  { intros [i k]. rewrite !elem_of_dom.
    rewrite (upsertAnnotations_lookup _ _ _ _ _
               (NoDup_fst_map_to_list (Annotations a)) Hu i k).
    case_decide; [|done].
    destruct (list_to_map (map_to_list (Annotations a)) !! k);
      [by eexists|done]. }
  apply insertOrUpdate_cases in Hb
    as [(_ & _ & -> & -> & Ht)|(_ & _ & -> & -> & Ht)]; rewrite <- Ht.
  - split; [rewrite fmap_app; by apply prefix_app_r|].
    split; [rewrite length_app; simpl; lia|].
    split; [by apply prefix_app_r|done].
  - split.
    { rewrite <- list_fmap_compose.
      rewrite (list_fmap_ext
                 ((λ r, (pg.id r, pg.fingerprint r, pg.startsAt r))
                  ∘ pg.updateRow toTimestamp a)
                 (λ r, (pg.id r, pg.fingerprint r, pg.startsAt r))
                 (pg.Alert db)); [done|].
      intros i r _. simpl. unfold pg.updateRow.
      by destruct (pg.matches toTimestamp a r). }
    split; [rewrite length_fmap; lia|]. by split.
Qed.

End save_one.

Lemma save_writes_labels_once_witness :
  pg.selectId micros savedOnce relabelled ≠ -1
  ∧ pg.AlertLabel (pg.save micros noFailure 2 savedOnce relabelled).1
    = pg.AlertLabel savedOnce.
Proof.
  assert (H : pg.selectId micros savedOnce relabelled ≠ -1).
  { intros H. vm_compute in H. discriminate. }
  split; [exact H|].
  exact (save_writes_labels_once micros noFailure 2 savedOnce relabelled H).
Defined.

Lemma save_inserts_unknown_alert_witness :
  pg.selectId micros emptyTables samples.a0 = -1
  ∧ pg.save micros noFailure 1 emptyTables samples.a0 = (savedOnce, false)
  ∧ pg.Alert savedOnce
    = pg.Alert emptyTables ++ [pg.newRow micros 1 samples.a0].
Proof.
  assert (H1 : pg.selectId micros emptyTables samples.a0 = -1)
    by reflexivity.
  assert (H2 : pg.save micros noFailure 1 emptyTables samples.a0
               = (savedOnce, false)) by (vm_compute; reflexivity).
  split; [exact H1|]. split; [exact H2|].
  exact (proj1 (save_inserts_unknown_alert micros noFailure 1 emptyTables
                  savedOnce samples.a0 H1 H2)).
Defined.

Lemma save_upserts_annotations_witness :
  pg.save micros noFailure 1 emptyTables samples.a0 = (savedOnce, false)
  ∧ ∃ alertId,
      (pg.selectId micros emptyTables samples.a0 = -1 ∧ alertId = 1
       ∨ pg.selectId micros emptyTables samples.a0 ≠ -1
         ∧ alertId = pg.selectId micros emptyTables samples.a0)
      ∧ ∀ i k,
          pg.AlertAnnotation savedOnce !! (i, k)
          = if decide (i = alertId)
            then match Annotations samples.a0 !! k with
                 | Some v => Some v
                 | None => pg.AlertAnnotation emptyTables !! (i, k)
                 end
            else pg.AlertAnnotation emptyTables !! (i, k).
Proof.
  assert (H : pg.save micros noFailure 1 emptyTables samples.a0
              = (savedOnce, false)) by (vm_compute; reflexivity).
  split; [exact H|].
  exact (save_upserts_annotations micros noFailure 1 emptyTables savedOnce
           samples.a0 H).
Defined.

Lemma save_again_changes_nothing_witness :
  pg.save micros noFailure 1 emptyTables samples.a0 = (savedOnce, false)
  ∧ pg.save micros noFailure 2 savedOnce samples.a0 = (savedOnce, false).
Proof.
  assert (H : pg.save micros noFailure 1 emptyTables samples.a0
              = (savedOnce, false)) by (vm_compute; reflexivity).
  split; [exact H|].
  apply (save_again_changes_nothing micros noFailure noFailure 1 2
           emptyTables savedOnce samples.a0).
  - apply Forall_nil_2.
  - discriminate.
  - exact H.
  - reflexivity.
Defined.
